(** * ai-fallback: the fallback / retry orchestrator

    A shallow embedding of
      - [src/error-classifier.ts]  ([defaultShouldRetry]),
      - [src/utils.ts]             ([calculateDelay], [sleep], [mergeSupportedUrls]),
      - [src/errors.ts]            ([AllModelsExhaustedError]),
      - [src/fallback-model.ts]    ([createFallbackModel], [executeWithFallback]).

    Conventions of the embedding.
      - A thrown JavaScript value is a [Failure]; an awaited call either
        returns or throws ([Outcome]).
      - Everything outside the orchestrator (the backends, the abort signal,
        the timer, [Math.random]) lives in an abstract world [W] that is
        threaded through the code explicitly.
      - Every call of a backend operation and every call site of an optional
        observer ([onError?.(...)], [onRetry?.(...)], [onFallback?.(...)]) is
        appended to a trace, whether or not the slot is filled; an observer
        does not act on the control flow.
      - Delays are JavaScript numbers, that is, doubles; they are modelled
        as exact rationals ([Q]).  The model computes what the code computes
        where every step of the code is exact ([computedExactly]); the
        statements about the value of a delay are made under that condition.
        Counters ([attempt], [maxRetriesPerModel], status codes) are
        integers ([Z]). *)

From Stdlib Require Import List String Ascii Bool ZArith QArith Qround Qminmax Qpower.
From Stdlib Require Import Lia Lqa Sorted.
From Stdlib Require Import Decimal DecimalString.
Import ListNotations.

Set Implicit Arguments.
Local Set Warnings "-register-all".

Local Open Scope string_scope.
Local Open Scope list_scope.

(* ================================================================== *)
(** ** Data model *)

(** [LanguageModelV3], as far as the orchestrator looks at it: the identity
    and the declared URL support.  The two operations of a backend are part
    of the world (see [Section World]). *)
Record LanguageModelV3 := {
  provider : string;
  modelId : string;
  supportedUrls : list (string * list string)
}.

(** [ErrorClassification] of [types.ts]: an object with the single field
    [action]. *)
Inductive Action := retry | fallback | throw.

Record ErrorClassification := { action : Action }.

Definition Action_eqb (a b : Action) : bool :=
  match a, b with
  | retry, retry | fallback, fallback | throw, throw => true
  | _, _ => false
  end.

(** Values that can be thrown.  [statusCode] is [number | undefined]. *)
Inductive Failure :=
| APICallError (message : string) (statusCode : option Z) (isRetryable : bool)
| TypeError (message : string)
| DOMException (message name : string)
| Error (message : string)
| AllModelsExhaustedError (message : string)
                          (errors : list (LanguageModelV3 * Failure))
| NonError (text : string).

Inductive Outcome (T : Type) :=
| Returned (value : T)
| Threw (error : Failure).

Arguments Returned {T} value.
Arguments Threw {T} error.

(* ================================================================== *)
(** ** error-classifier.ts *)

(** [haystack.includes(needle)]. *)
Fixpoint includes (needle haystack : string) : bool :=
  if String.prefix needle haystack then true
  else match haystack with
       | EmptyString => false
       | String _ rest => includes needle rest
       end.

Definition defaultShouldRetry (error : Failure) : ErrorClassification :=
  match error with
  | APICallError _ status isRetryable =>
      if match status with Some s => s =? 429 | None => false end
      then {| action := fallback |}
      else if match status with Some s => s >=? 500 | None => false end
      then {| action := retry |}
      else if isRetryable
      then {| action := retry |}
      else {| action := throw |}
  | TypeError message =>
      if includes "fetch" message
      then {| action := retry |}
      else {| action := throw |}
  | _ => {| action := throw |}
  end%Z.

(* ================================================================== *)
(** ** errors.ts *)

Definition newline : string := String (ascii_of_nat 10) EmptyString.

(** [e.error instanceof Error ? e.error.message : String(e.error)] *)
Definition errorText (error : Failure) : string :=
  match error with
  | APICallError message _ _ => message
  | TypeError message => message
  | DOMException message _ => message
  | Error message => message
  | AllModelsExhaustedError message _ => message
  | NonError text => text
  end.

Definition summaryLine (i : nat) (e : LanguageModelV3 * Failure) : string :=
  ("  [" ++ NilEmpty.string_of_uint (Nat.to_uint i) ++ "] "
   ++ provider (fst e) ++ "/" ++ modelId (fst e) ++ ": "
   ++ errorText (snd e))%string.

(** [errors.map((e, i) => ...)], from index [i] on. *)
Fixpoint summaryLines (i : nat) (errors : list (LanguageModelV3 * Failure))
  : list string :=
  match errors with
  | [] => []
  | e :: rest => summaryLine i e :: summaryLines (S i) rest
  end.

(** [new AllModelsExhaustedError(errors)] *)
Definition newAllModelsExhaustedError
    (errors : list (LanguageModelV3 * Failure)) : Failure :=
  AllModelsExhaustedError
    ("All fallback models exhausted:" ++ newline
     ++ String.concat newline (summaryLines 0 errors))%string
    errors.

(* ================================================================== *)
(** ** utils.ts *)

(** [Math.round] on an exact number: halves go up. *)
Definition Math_round (x : Q) : Z := Qfloor (x + (1 # 2))%Q.

(** [merged[mediaType].push(...patterns)], creating the entry when it is
    missing; a JavaScript object keeps its keys in insertion order. *)
Fixpoint pushPatterns (mediaType : string) (patterns : list string)
    (merged : list (string * list string)) : list (string * list string) :=
  match merged with
  | [] => [(mediaType, patterns)]
  | (k, ps) :: rest =>
      if String.eqb k mediaType then (k, ps ++ patterns) :: rest
      else (k, ps) :: pushPatterns mediaType patterns rest
  end.

Definition mergeSupportedUrls (models : list LanguageModelV3)
  : list (string * list string) :=
  fold_left
    (fun merged urls =>
       fold_left (fun merged entry => pushPatterns (fst entry) (snd entry) merged)
                 urls merged)
    (map supportedUrls models) [].

(** [FallbackModelConfig] of [types.ts]; an optional field that is left out
    is [None].  The observers [onRetry], [onFallback] and [onError] are
    seen through the trace of an invocation. *)
Module Config.
Record t := {
  models : list LanguageModelV3;
  maxRetriesPerModel : option Z;
  baseDelayMs : option Q;
  maxDelayMs : option Q;
  shouldRetry : option (Failure -> ErrorClassification);
  provider : option string;
  modelId : option string
}.
End Config.

Section World.

(** The world outside the orchestrator. *)
Variable W : Type.

(** An [AbortSignal] is read in the current world. [reason] is [None] when
    the field is [undefined] or [null]. *)
Record AbortSignal := {
  aborted : W -> bool;
  reason : W -> option Failure
}.

(** [LanguageModelV3CallOptions]: the orchestrator reads [abortSignal] only. *)
Record LanguageModelV3CallOptions := {
  abortSignal : option AbortSignal
}.

(** [signal?.aborted] *)
Definition signalAborted (signal : option AbortSignal) (w : W) : bool :=
  match signal with
  | Some s => aborted s w
  | None => false
  end.

(** [signal.reason ?? new DOMException('Aborted', 'AbortError')], read where
    [signal] is known to be present; without a signal the expression is not
    reached and the model gives the exception. *)
Definition abortReason (signal : option AbortSignal) (w : W) : Failure :=
  match signal with
  | Some s => match reason s w with
              | Some r => r
              | None => DOMException "Aborted" "AbortError"
              end
  | None => DOMException "Aborted" "AbortError"
  end.

(** [Math.random()]: a draw and the world after it. *)
Variable random : W -> Q * W.

(** [timer ms signal w] is the world at the moment the promise of [sleep]
    settles after a wait started in [w]: the moment the timeout of [ms]
    fires or the moment [signal] dispatches 'abort', whichever comes first.
    The abort listener has run exactly when the signal is aborted then. *)
Variable timer : Z -> option AbortSignal -> W -> W.

Definition calculateDelay (attempt : Z) (baseDelayMs maxDelayMs : Q) (w : W)
  : Z * W :=
  let exponential := Qmin maxDelayMs (baseDelayMs * Qpower 2 attempt)%Q in
  let (r, w') := random w in
  let jitter := ((1 # 2) + r * (1 # 2))%Q in
  (Math_round (exponential * jitter)%Q, w').

Definition sleep (ms : Z) (signal : option AbortSignal) (w : W)
  : Outcome unit * W :=
  if signalAborted signal w then (Threw (abortReason signal w), w)
  else
    let w' := timer ms signal w in
    if signalAborted signal w' then (Threw (abortReason signal w'), w')
    else (Returned tt, w').

(* ================================================================== *)
(** ** fallback-model.ts *)

(** What an invocation does that can be seen from outside: calls of a
    backend operation and calls of the observers [onError], [onRetry] and
    [onFallback], with the objects they are given.  [nextModel] is
    [models[modelIndex + 1]], [None] for [undefined]. *)
Inductive Event :=
| Invoked (modelIndex : nat) (model : LanguageModelV3)
| ErrorEvent (modelIndex : nat) (model : LanguageModelV3) (error : Failure)
             (classification : ErrorClassification)
| RetryEvent (modelIndex : nat) (model : LanguageModelV3) (attempt : Z)
             (maxRetries : Z) (error : Failure) (delayMs : Z)
| FallbackEvent (failedModelIndex : nat) (failedModel : LanguageModelV3)
                (nextModelIndex : nat) (nextModel : option LanguageModelV3)
                (error : Failure) (totalAttempts : Z).

(** The state of one invocation of [executeWithFallback]: the local array
    [errors], the world and the trace so far. *)
Record Run := {
  errors : list (LanguageModelV3 * Failure);
  world : W;
  trace : list Event
}.

Definition emit (ev : Event) (st : Run) : Run :=
  {| errors := errors st; world := world st; trace := trace st ++ [ev] |}.

Definition setWorld (w : W) (st : Run) : Run :=
  {| errors := errors st; world := w; trace := trace st |}.

(** [errors.push({ model, error })] *)
Definition pushError (model : LanguageModelV3) (error : Failure) (st : Run)
  : Run :=
  {| errors := errors st ++ [(model, error)];
     world := world st; trace := trace st |}.

(** How a piece of the function body ends. *)
Inductive Completion (T : Type) :=
| Normal
| Continue
| Break
| Return (value : T)
| Throw (error : Failure).

Arguments Normal {T}.
Arguments Continue {T}.
Arguments Break {T}.
Arguments Return {T} value.
Arguments Throw {T} error.

Section Closure.

(** The variables [createFallbackModel] destructures from its config and
    [executeWithFallback] closes over. *)
Variable models : list LanguageModelV3.
Variable maxRetriesPerModel : Z.
Variables baseDelayMs maxDelayMs : Q.
Variable shouldRetry : Failure -> ErrorClassification.

Section Invocation.

Variable T : Type.
Variable operation : LanguageModelV3 -> W -> Outcome T * W.
Variable options : LanguageModelV3CallOptions.

(** The body of the inner [for] loop, lines 67-121. *)
Definition attemptBody (modelIndex : nat) (model : LanguageModelV3)
    (attempt : Z) (st : Run) : Completion T * Run :=
  if signalAborted (abortSignal options) (world st) then
    (Throw (abortReason (abortSignal options) (world st)), st)
  else
    let (result, w1) := operation model (world st) in
    let st1 := emit (Invoked modelIndex model) (setWorld w1 st) in
    match result with
    | Returned value => (Return value, st1)
    | Threw error =>
        let classification := shouldRetry error in
        let st2 := emit (ErrorEvent modelIndex model error classification) st1 in
        if Action_eqb (action classification) throw then (Throw error, st2)
        else
          let st3 := pushError model error st2 in
          if Action_eqb (action classification) retry
             && (attempt <? maxRetriesPerModel)%Z
          then
            let (delay, w2) :=
              calculateDelay attempt baseDelayMs maxDelayMs (world st3) in
            let st4 :=
              emit (RetryEvent modelIndex model (attempt + 1)
                               maxRetriesPerModel error delay)
                   (setWorld w2 st3) in
            match sleep delay (abortSignal options) (world st4) with
            | (Threw e, w3) => (Throw e, setWorld w3 st4)
            | (Returned _, w3) => (Continue, setWorld w3 st4)
            end
          else
            let st5 :=
              if (Z.of_nat modelIndex <? Z.of_nat (List.length models) - 1)%Z
              then emit (FallbackEvent modelIndex model (modelIndex + 1)
                                       (nth_error models (modelIndex + 1))
                                       error (attempt + 1)) st3
              else st3 in
            (Break, st5)
    end.

(** [for (let attempt = ...; attempt <= maxRetriesPerModel; attempt++)],
    entered at the test.  [None] when [fuel] iterations were not enough. *)
Fixpoint attemptLoop (fuel : nat) (modelIndex : nat) (model : LanguageModelV3)
    (attempt : Z) (st : Run) : option (Completion T * Run) :=
  if (attempt <=? maxRetriesPerModel)%Z then
    match attemptBody modelIndex model attempt st with
    | (Continue, st') =>
        match fuel with
        | O => None
        | S fuel' => attemptLoop fuel' modelIndex model (attempt + 1) st'
        end
    | (Break, st') => Some (Normal, st')
    | (c, st') => Some (c, st')
    end
  else Some (Normal, st).

(** [for (let modelIndex = ...; modelIndex < models.length; modelIndex++)],
    entered at the test with [rest] the models from [modelIndex] on. *)
Fixpoint modelLoop (fuel : nat) (modelIndex : nat) (rest : list LanguageModelV3)
    (st : Run) : option (Completion T * Run) :=
  match rest with
  | [] => Some (Normal, st)
  | model :: rest' =>
      match attemptLoop fuel modelIndex model 0 st with
      | Some (Normal, st') => modelLoop fuel (S modelIndex) rest' st'
      | other => other
      end
  end.

(** The fresh state of an invocation: [errors = []], nothing seen yet. *)
Definition start (w : W) : Run := {| errors := []; world := w; trace := [] |}.

(** One iteration of the inner loop per value of [attempt] in
    [0 .. maxRetriesPerModel]. *)
Definition attemptFuel : nat := Z.to_nat (maxRetriesPerModel + 1).

Definition executeWithFallback (w : W) : option (Completion T * Run) :=
  match modelLoop attemptFuel 0 models (start w) with
  | Some (Normal, st) => Some (Throw (newAllModelsExhaustedError (errors st)), st)
  | other => other
  end.

(** The chain is exhausted: the outer loop runs to its end, so that the
    [throw new AllModelsExhaustedError(errors)] after it is reached in
    state [st]. *)
Definition exhausts (w : W) (st : Run) : Prop :=
  modelLoop attemptFuel 0 models (start w) = Some (Normal, st).

(** [Reaches w modelIndex model attempt st]: in the invocation started in
    world [w], the body of the inner loop is entered with these values of
    [modelIndex], [model] and [attempt], in state [st]. *)
Inductive Reaches (w : W) : nat -> LanguageModelV3 -> Z -> Run -> Prop :=
| Reaches_first model :
    nth_error models 0 = Some model ->
    (0 <= maxRetriesPerModel)%Z ->
    Reaches w 0 model 0 (start w)
| Reaches_retry modelIndex model attempt st st' :
    Reaches w modelIndex model attempt st ->
    attemptBody modelIndex model attempt st = (Continue, st') ->
    (attempt + 1 <= maxRetriesPerModel)%Z ->
    Reaches w modelIndex model (attempt + 1) st'
| Reaches_next modelIndex model attempt st st' model' :
    Reaches w modelIndex model attempt st ->
    attemptBody modelIndex model attempt st = (Break, st') ->
    nth_error models (S modelIndex) = Some model' ->
    (0 <= maxRetriesPerModel)%Z ->
    Reaches w (S modelIndex) model' 0 st'.

End Invocation.
End Closure.
End World.

(* ================================================================== *)
(** ** Reading a trace *)

(** The (backend, failure) pairs of the failures that were caught, that is,
    of the calls of [onError], in order. *)
Fixpoint caught (tr : list Event) : list (LanguageModelV3 * Failure) :=
  match tr with
  | [] => []
  | ErrorEvent _ model error _ :: tr' => (model, error) :: caught tr'
  | _ :: tr' => caught tr'
  end.


(** [k] copies of each backend, backend by backend in the order of the
    chain, [k] taken from [counts]. *)
Definition blocks (chain : list LanguageModelV3) (counts : list nat)
  : list LanguageModelV3 :=
  flat_map (fun p => repeat (fst p) (snd p)) (combine chain counts).

(** The pairs of the caught failures that were not classified [throw]:
    those that reach [errors.push]. *)
Fixpoint recorded (tr : list Event) : list (LanguageModelV3 * Failure) :=
  match tr with
  | [] => []
  | ErrorEvent _ model error classification :: tr' =>
      if Action_eqb (action classification) throw then recorded tr'
      else (model, error) :: recorded tr'
  | _ :: tr' => recorded tr'
  end.

(** The index of the backend an event is about. *)
Definition eventIndex (ev : Event) : nat :=
  match ev with
  | Invoked i _ => i
  | ErrorEvent i _ _ _ => i
  | RetryEvent i _ _ _ _ _ => i
  | FallbackEvent i _ _ _ _ _ => i
  end.

Definition isInvocationOf (i : nat) (ev : Event) : bool :=
  match ev with
  | Invoked j _ => Nat.eqb j i
  | _ => false
  end.

(** How often the backend at index [i] was invoked. *)
Definition invocationsOf (i : nat) (tr : list Event) : nat :=
  List.length (filter (isInvocationOf i) tr).

(** What the fields of an event can be, for a given chain, budget and
    classifier. *)
Definition wellFormedEvent (models : list LanguageModelV3)
    (maxRetriesPerModel : Z) (shouldRetry : Failure -> ErrorClassification)
    (ev : Event) : Prop :=
  match ev with
  | Invoked i m => nth_error models i = Some m
  | ErrorEvent i m e classification =>
      nth_error models i = Some m /\ classification = shouldRetry e
  | RetryEvent i m attempt maxRetries e _ =>
      nth_error models i = Some m
      /\ (1 <= attempt <= maxRetriesPerModel)%Z
      /\ maxRetries = maxRetriesPerModel
      /\ action (shouldRetry e) = retry
  | FallbackEvent i m next nextModel e totalAttempts =>
      nth_error models i = Some m
      /\ next = S i
      /\ nextModel = nth_error models (S i)
      /\ (exists m', nextModel = Some m')
      /\ (1 <= totalAttempts <= maxRetriesPerModel + 1)%Z
      /\ action (shouldRetry e) <> throw
  end.

(** What holds of the state in which the body of the inner loop is entered
    for backend [i] and attempt [a]. *)
Definition traceInvariant (W : Type) (models : list LanguageModelV3)
    (maxRetriesPerModel : Z) (shouldRetry : Failure -> ErrorClassification)
    (i : nat) (a : Z) (st : Run W) : Prop :=
  Forall (wellFormedEvent models maxRetriesPerModel shouldRetry) (trace st)
  /\ StronglySorted le (map eventIndex (trace st))
  /\ Forall (fun ev => (eventIndex ev <= i)%nat) (trace st)
  /\ (Z.of_nat (invocationsOf i (trace st)) <= a)%Z
  /\ (forall j, (Z.of_nat (invocationsOf j (trace st))
                 <= Z.max 0 (maxRetriesPerModel + 1))%Z)
  /\ errors st = recorded (trace st).

(** What holds of the state in which an invocation ends. *)
Definition finalInvariant (W : Type) (models : list LanguageModelV3)
    (maxRetriesPerModel : Z) (shouldRetry : Failure -> ErrorClassification)
    (st : Run W) : Prop :=
  Forall (wellFormedEvent models maxRetriesPerModel shouldRetry) (trace st)
  /\ StronglySorted le (map eventIndex (trace st))
  /\ (forall j, (Z.of_nat (invocationsOf j (trace st))
                 <= Z.max 0 (maxRetriesPerModel + 1))%Z)
  /\ errors st = recorded (trace st).

Definition isInvoked (ev : Event) : bool :=
  match ev with
  | Invoked _ _ => true
  | _ => false
  end.

(** The invocations of backend operations in a trace, in order. *)
Definition invocations (tr : list Event) : list Event := filter isInvoked tr.

(** One invocation of a backend operation that threw: the index and the
    backend, the world in which the operation was called, what it threw and
    the world it left. *)
Record FailedCall (W : Type) := {
  callIndex : nat;
  callModel : LanguageModelV3;
  callBefore : W;
  callFailure : Failure;
  callAfter : W
}.

(** The pair that [errors.push({ model, error })] stores for a call. *)
Definition callPair (W : Type) (k : FailedCall W) : LanguageModelV3 * Failure :=
  (callModel k, callFailure k).

(* ================================================================== *)
(** ** Where exact numbers are what the code computes

    A JavaScript number is an IEEE 754 double.  [calculateDelay] above
    computes with exact rationals; it gives the value the code gives
    wherever no step of the code rounds, overflows or yields [NaN], that
    is, wherever the exact result of every step is itself a double. *)

(** [q] is a finite double: [m * 2^e] with a significand of at most 53
    bits and an exponent in the range of the format. *)
Definition representable (q : Q) : Prop :=
  exists m e : Z,
    (Z.abs m < 2 ^ 53)%Z /\ (-1074 <= e <= 971)%Z
    /\ (q == inject_Z m * Qpower 2 e)%Q.

(** Every step of [calculateDelay] is exact for these arguments and this
    draw [r] of [Math.random]: the arguments are doubles, and so are the
    power, the two products, the sum and the final product.  A product or
    a sum of doubles whose exact value is a double is that value, and
    [Math.pow(2, n)] is taken to be exact when [2^n] is a double;
    [Math.round] of a double is the integer the model gives. *)
Definition computedExactly (attempt : Z) (baseDelayMs maxDelayMs r : Q)
  : Prop :=
  representable baseDelayMs
  /\ representable maxDelayMs
  /\ representable r
  /\ representable (Qpower 2 attempt)
  /\ representable (baseDelayMs * Qpower 2 attempt)%Q
  /\ representable (r * (1 # 2))%Q
  /\ representable ((1 # 2) + r * (1 # 2))%Q
  /\ representable (Qmin maxDelayMs (baseDelayMs * Qpower 2 attempt)
                    * ((1 # 2) + r * (1 # 2)))%Q.

(* ================================================================== *)
(** ** Transport failures, as the spec words them

    The spec speaks of "a network-transport failure (connection/DNS/TLS-
    level)".  The definition below follows these words, not the code: it
    lists how such failures are reported by the runtimes the library runs
    on.  A failed [fetch] is a [TypeError] ("fetch failed" in Node,
    "Failed to fetch" in Chromium, "Load failed" in WebKit, "NetworkError
    when attempting to fetch resource." in Firefox); a failure below
    [fetch] is an [Error] that carries the system code of the connection
    ([ECONNREFUSED], [ECONNRESET], [ETIMEDOUT]), of the name lookup
    ([ENOTFOUND], [EAI_AGAIN]) or of the TLS handshake
    ([CERT_HAS_EXPIRED], [UNABLE_TO_VERIFY_LEAF_SIGNATURE]). *)
Definition specTransportFailure (error : Failure) : bool :=
  match error with
  | TypeError message =>
      includes "fetch" message
      || includes "Load failed" message
      || includes "NetworkError" message
  | Error message =>
      includes "ECONNREFUSED" message
      || includes "ECONNRESET" message
      || includes "ETIMEDOUT" message
      || includes "ENOTFOUND" message
      || includes "EAI_AGAIN" message
      || includes "CERT_HAS_EXPIRED" message
      || includes "UNABLE_TO_VERIFY_LEAF_SIGNATURE" message
  | _ => false
  end.

(* ================================================================== *)
(** ** Reading a message line by line *)

Definition isLineBreak (ch : ascii) : bool := Ascii.eqb ch (ascii_of_nat 10).

(** The string has no line break. *)
Fixpoint singleLine (s : string) : bool :=
  match s with
  | EmptyString => true
  | String ch rest => negb (isLineBreak ch) && singleLine rest
  end.

(** [message.split('\n')] *)
Fixpoint splitLines (s : string) : list string :=
  match s with
  | EmptyString => [EmptyString]
  | String ch rest =>
      if isLineBreak ch then EmptyString :: splitLines rest
      else match splitLines rest with
           | line :: lines => String ch line :: lines
           | [] => [String ch EmptyString]
           end
  end.

(* ================================================================== *)
(** ** Reading a record of URL patterns *)

(** The patterns listed under [mediaType], entry after entry. *)
Definition patternsOf (mediaType : string) (urls : list (string * list string))
  : list string :=
  flat_map (fun entry => if String.eqb (fst entry) mediaType then snd entry
                         else [])
           urls.

(** The property names an object literal inherits from [Object.prototype].
    [merged[mediaType]] finds them although [merged] does not own them, so
    [mergeSupportedUrls] models the source for other media types only. *)
Definition objectPrototypeKeys : list string :=
  ["constructor"; "__defineGetter__"; "__defineSetter__"; "hasOwnProperty";
   "__lookupGetter__"; "__lookupSetter__"; "isPrototypeOf";
   "propertyIsEnumerable"; "toString"; "valueOf"; "__proto__";
   "toLocaleString"].

(** No model declares a media type that is an inherited property name. *)
Definition plainMediaTypes (models : list LanguageModelV3) : Prop :=
  forall m k, In m models -> In k (map fst (supportedUrls m)) ->
              ~ In k objectPrototypeKeys.

Arguments Normal {T}.
Arguments Continue {T}.
Arguments Break {T}.
Arguments Return {T} value.
Arguments Throw {T} error.

Section Composite.

Variable W : Type.
Variable random : W -> Q * W.
Variable timer : Z -> option (AbortSignal W) -> W -> W.

(** The results and the two operations of a backend,
    [model.doGenerate(options)] and [model.doStream(options)]. *)
Variables GenerateResult StreamResult : Type.
Variable backendGenerate :
  LanguageModelV3 -> LanguageModelV3CallOptions W -> W -> Outcome GenerateResult * W.
Variable backendStream :
  LanguageModelV3 -> LanguageModelV3CallOptions W -> W -> Outcome StreamResult * W.

(** The object [createFallbackModel] returns. *)
Record FallbackModel := {
  specificationVersion : string;
  identity : LanguageModelV3;
  doGenerate : LanguageModelV3CallOptions W -> W
               -> option (Completion GenerateResult * Run W);
  doStream : LanguageModelV3CallOptions W -> W
             -> option (Completion StreamResult * Run W)
}.

Definition createFallbackModel (config : Config.t) : Outcome FallbackModel :=
  let models := Config.models config in
  let maxRetriesPerModel :=
    match Config.maxRetriesPerModel config with Some n => n | None => 0%Z end in
  let baseDelayMs :=
    match Config.baseDelayMs config with Some d => d | None => 1000%Q end in
  let maxDelayMs :=
    match Config.maxDelayMs config with Some d => d | None => 30000%Q end in
  let shouldRetry :=
    match Config.shouldRetry config with
    | Some f => f
    | None => defaultShouldRetry
    end in
  let provider :=
    match Config.provider config with Some p => p | None => "fallback" end in
  let modelId :=
    match Config.modelId config with
    | Some i => i
    | None => String.concat " -> " (map modelId models)
    end in
  if (List.length models =? 0)%nat then
    Threw (Error "createFallbackModel requires at least one model")
  else
    let supportedUrls := mergeSupportedUrls models in
    let executeWithFallback T operation options :=
      @executeWithFallback W random timer models maxRetriesPerModel
                           baseDelayMs maxDelayMs shouldRetry T operation
                           options in
    Returned
      {| specificationVersion := "v3";
         identity := {| provider := provider; modelId := modelId;
                        supportedUrls := supportedUrls |};
         doGenerate := fun options =>
           executeWithFallback GenerateResult
             (fun model => backendGenerate model options) options;
         doStream := fun options =>
           executeWithFallback StreamResult
             (fun model => backendStream model options) options |}.

End Composite.

(* ================================================================== *)
(** ** A scripted world for running the model

    The world is a clock that counts the waits of [sleep]; a backend behaves
    the way a table says for its [modelId], like [mockModel] of the manual
    test. *)
Module Sim.

Inductive Behaviour := succeed | fail429 | fail500 | fail401 | networkError.

Definition mockModel (id : string) : LanguageModelV3 :=
  {| provider := "mock"; modelId := id; supportedUrls := [] |}.

Definition mockFailure (b : Behaviour) (id : string) : Failure :=
  match b with
  | fail429 => APICallError ("Rate limited on " ++ id)%string (Some 429%Z) true
  | fail500 => APICallError ("Server error on " ++ id)%string (Some 500%Z) true
  | fail401 => APICallError ("Unauthorized on " ++ id)%string (Some 401%Z) false
  | _ => TypeError "fetch failed"
  end.

Definition mockOperation (behaviour : string -> Behaviour)
    (model : LanguageModelV3) (w : nat) : Outcome string * nat :=
  match behaviour (modelId model) with
  | succeed => (Returned ("Response from " ++ modelId model)%string, w)
  | b => (Threw (mockFailure b (modelId model)), w)
  end.

(** [Math.random()] always draws [r]. *)
Definition constantRandom (r : Q) (w : nat) : Q * nat := (r, w).

(** A wait takes one tick. *)
Definition tick (ms : Z) (signal : option (AbortSignal nat)) (w : nat) : nat :=
  S w.

(** A signal that is aborted from tick [k] on, with the given [reason]. *)
Definition abortAt (k : nat) (r : option Failure) : AbortSignal nat :=
  {| aborted := fun w => (k <=? w)%nat; reason := fun _ => r |}.

Definition noSignal : LanguageModelV3CallOptions nat :=
  {| abortSignal := None |}.

Definition withSignal (s : AbortSignal nat) : LanguageModelV3CallOptions nat :=
  {| abortSignal := Some s |}.

(** [executeWithFallback] in the scripted world, with the default
    classifier and delays and the draw [1/2]. *)
Definition run (models : list LanguageModelV3) (maxRetriesPerModel : Z)
    (behaviour : string -> Behaviour)
    (options : LanguageModelV3CallOptions nat)
  : option (Completion string * Run nat) :=
  executeWithFallback (constantRandom (1 # 2)) tick models maxRetriesPerModel
                      1000%Q 30000%Q defaultShouldRetry
                      (mockOperation behaviour) options 0%nat.

Definition always (b : Behaviour) (id : string) : Behaviour := b.

(** The behaviour listed for [id], [succeed] when there is none. *)
Fixpoint byId (table : list (string * Behaviour)) (id : string) : Behaviour :=
  match table with
  | [] => succeed
  | (k, b) :: table' => if String.eqb k id then b else byId table' id
  end.

Definition finalState (r : option (Completion string * Run nat)) : Run nat :=
  match r with
  | Some (_, st) => st
  | None => start 0%nat
  end.

(** Both operations of a backend behave as the table says. *)
Definition mockBackend (behaviour : string -> Behaviour)
    (model : LanguageModelV3) (options : LanguageModelV3CallOptions nat)
    (w : nat) : Outcome string * nat :=
  mockOperation behaviour model w.

Definition config (models : list LanguageModelV3)
    (maxRetriesPerModel : option Z) : Config.t :=
  {| Config.models := models;
     Config.maxRetriesPerModel := maxRetriesPerModel;
     Config.baseDelayMs := None;
     Config.maxDelayMs := None;
     Config.shouldRetry := None;
     Config.provider := None;
     Config.modelId := None |}.

Definition create (behaviour : string -> Behaviour) (cfg : Config.t)
  : Outcome (FallbackModel nat string string) :=
  createFallbackModel (constantRandom (1 # 2)) tick
                      (mockBackend behaviour) (mockBackend behaviour) cfg.

(** Two models that declare URL support. *)
Definition mediaChain : list LanguageModelV3 :=
  [ {| provider := "mock"; modelId := "a";
       supportedUrls := [("image/*", ["https://a.example/"]);
                         ("audio/*", ["https://s.example/"])] |};
    {| provider := "mock"; modelId := "b";
       supportedUrls := [("image/*", ["https://b.example/"])] |} ].

(** A backend that takes one tick to answer. *)
Definition slowOperation (behaviour : string -> Behaviour)
    (model : LanguageModelV3) (w : nat) : Outcome string * nat :=
  (fst (mockOperation behaviour model w), S w).

End Sim.

(* ================================================================== *)
(** * Properties *)

Unset Implicit Arguments.

(* ------------------------------------------------------------------ *)
(** ** The default classifier *)

Example classify_429 :
  defaultShouldRetry (APICallError "Rate limited" (Some 429%Z) true)
  = {| action := fallback |}.
Proof. reflexivity. Qed.

Example classify_500 :
  defaultShouldRetry (APICallError "Server error" (Some 500%Z) true)
  = {| action := retry |}.
Proof. reflexivity. Qed.

Example classify_401 :
  defaultShouldRetry (APICallError "Unauthorized" (Some 401%Z) false)
  = {| action := throw |}.
Proof. reflexivity. Qed.

Example classify_network :
  defaultShouldRetry (TypeError "fetch failed") = {| action := retry |}.
Proof. reflexivity. Qed.

Example classify_other_type_error :
  defaultShouldRetry (TypeError "Load failed") = {| action := throw |}.
Proof. reflexivity. Qed.

Lemma prefix_app (p s : string) : String.prefix p (p ++ s)%string = true.
Proof.
  induction p as [|c p IH]; simpl.
  - now destruct s.
  - destruct (Ascii.ascii_dec c c) as [_|ne]; [exact IH | now elim ne].
Qed.

Lemma includes_eq (needle haystack : string) :
  includes needle haystack =
  if String.prefix needle haystack then true
  else match haystack with
       | EmptyString => false
       | String _ rest => includes needle rest
       end.
Proof. destruct haystack; reflexivity. Qed.

Lemma includes_app (needle pre post : string) :
  includes needle (pre ++ needle ++ post)%string = true.
Proof.
  induction pre as [|c pre IH]; rewrite includes_eq.
  - change ("" ++ needle ++ post)%string with (needle ++ post)%string.
    now rewrite prefix_app.
  - change (String c pre ++ needle ++ post)%string
      with (String c (pre ++ needle ++ post)%string).
    cbv beta iota. rewrite IH. now destruct (String.prefix needle _).
Qed.

(** C2, as stated, fails: a 408 whose [isRetryable] flag is set is retried,
    because the flag is looked at before the status is taken for a client
    fault. *)
Lemma client_fault_retryable_is_retried :
  let e := APICallError "Request Timeout" (Some 408%Z) true in
  (400 <= 408 < 500)%Z /\ 408%Z <> 429%Z
  /\ defaultShouldRetry e = {| action := retry |}
  /\ defaultShouldRetry e <> {| action := throw |}.
Proof. repeat split; try lia; discriminate. Qed.

(** C2, amended: a failure with a status in [400, 500) other than 429 whose
    [isRetryable] flag is not set is classified [throw], whatever its
    message. *)
Theorem client_fault_throws (message : string) (status : Z) :
  (400 <= status < 500)%Z -> status <> 429%Z ->
  defaultShouldRetry (APICallError message (Some status) false)
  = {| action := throw |}.
Proof.
  intros Hrange Hne. unfold defaultShouldRetry.
  destruct (Z.eqb_spec status 429) as [->|_]; [now elim Hne|].
  destruct (Z.geb_spec status 500) as [Hge|_]; [lia|reflexivity].
Qed.

Lemma client_fault_throws_witness :
  defaultShouldRetry (APICallError "Unauthorized" (Some 401%Z) false)
  = {| action := throw |}.
Proof. apply client_fault_throws; lia. Defined.

(* ------------------------------------------------------------------ *)
(** ** The backoff delay *)

Section Backoff.

Variable W : Type.
Variable random : W -> Q * W.

Local Open Scope Q_scope.

Lemma Math_round_integer (n : Z) : Math_round (inject_Z n) = n.
Proof.
  unfold Math_round.
  assert (Hlo : (n <= Qfloor (inject_Z n + (1 # 2)))%Z).
  { rewrite <- (Qfloor_Z n) at 1. apply Qfloor_resp_le. lra. }
  assert (Hhi : (Qfloor (inject_Z n + (1 # 2)) < n + 1)%Z).
  { rewrite Zlt_Qlt. eapply Qle_lt_trans; [apply Qfloor_le|].
    rewrite inject_Z_plus. change (inject_Z 1) with 1. lra. }
  lia.
Qed.





End Backoff.

(** Shows that a number is a double by its significand and exponent. *)
Ltac double m e :=
  exists m, e; split; [reflexivity|]; split; [lia|]; vm_compute; reflexivity.



(** From attempt 1024 on the power overflows in double arithmetic (and
    makes the product [NaN] for a base of 0): no such computation is
    exact. *)
Lemma overflow_not_representable (n : Z) :
  (1024 <= n)%Z -> ~ representable (Qpower 2 n).
Proof.
  intros Hn (m & e & Hm & He & Heq).
  assert (Hbig : (Qpower 2 1024 <= Qpower 2 n)%Q)
    by (apply Qpower_le_compat_l; [lia | discriminate]).
  assert (Hsmall : (Qpower 2 e <= Qpower 2 971)%Q)
    by (apply Qpower_le_compat_l; [lia | discriminate]).
  assert (Hpos : (0 < Qpower 2 e)%Q) by (apply Qpower_0_lt; reflexivity).
  assert (Hm' : (inject_Z m <= inject_Z (2 ^ 53 - 1))%Q)
    by (rewrite <- Zle_Qle; lia).
  assert (Hsplit : (Qpower 2 1024 == inject_Z (2 ^ 53) * Qpower 2 971)%Q)
    by (vm_compute; reflexivity).
  assert (HM : (inject_Z (2 ^ 53 - 1) == inject_Z (2 ^ 53) - 1)%Q)
    by (vm_compute; reflexivity).
  assert (Hp : (0 < Qpower 2 971)%Q) by (apply Qpower_0_lt; reflexivity).
  assert (HB : (0 <= inject_Z (2 ^ 53) - 1)%Q) by (vm_compute; discriminate).
  set (x := Qpower 2 e) in *. set (p := Qpower 2 971) in *.
  set (M := inject_Z m) in *. set (B := inject_Z (2 ^ 53)) in *.
  assert (Hprod : (M * x <= (B - 1) * p)%Q).
  { destruct (Qlt_le_dec M 0); [|nra].
    assert ((0 <= (B - 1) * p)%Q) by (apply Qmult_le_0_compat; lra). nra. }
  nra.
Qed.

Lemma overflow_not_computedExactly (n : Z) (base cap r : Q) :
  (1024 <= n)%Z -> ~ computedExactly n base cap r.
Proof.
  intros Hn (_ & _ & _ & Hpow & _).
  exact (overflow_not_representable n Hn Hpow).
Qed.

(* ------------------------------------------------------------------ *)
(** ** The orchestrator: one attempt *)

Lemma caught_app (tr1 tr2 : list Event) :
  caught (tr1 ++ tr2) = caught tr1 ++ caught tr2.
Proof.
  induction tr1 as [|ev tr1 IH]; [reflexivity|].
  destruct ev; simpl; now rewrite IH.
Qed.

Section Orchestration.

Variable W : Type.
Variable random : W -> Q * W.
Variable timer : Z -> option (AbortSignal W) -> W -> W.
Variable models : list LanguageModelV3.
Variable maxRetriesPerModel : Z.
Variables baseDelayMs maxDelayMs : Q.
Variable shouldRetry : Failure -> ErrorClassification.
Variable T : Type.
Variable operation : LanguageModelV3 -> W -> Outcome T * W.
Variable options : LanguageModelV3CallOptions W.

Local Abbreviation body :=
  (attemptBody random timer models maxRetriesPerModel baseDelayMs maxDelayMs
               shouldRetry operation options).
Local Abbreviation attempts :=
  (attemptLoop random timer models maxRetriesPerModel baseDelayMs maxDelayMs
               shouldRetry operation options).
Local Abbreviation chain :=
  (modelLoop random timer models maxRetriesPerModel baseDelayMs maxDelayMs
             shouldRetry operation options).
Local Abbreviation execute :=
  (executeWithFallback random timer models maxRetriesPerModel baseDelayMs
                       maxDelayMs shouldRetry operation options).
Local Abbreviation fuel0 := (attemptFuel maxRetriesPerModel).

(** Splits an equation [body i m a st = (c, st')] along the branches of the
    body. *)
Ltac body_cases H :=
  unfold attemptBody in H;
  destruct (signalAborted (abortSignal options) _) eqn:Haborted;
  [ | destruct (operation _ _) as [[value|error] w1] eqn:Hoperation;
      [ | destruct (Action_eqb (action (shouldRetry error)) throw) eqn:Hthrow;
          [ | destruct (Action_eqb (action (shouldRetry error)) retry
                        && (_ <? maxRetriesPerModel)%Z) eqn:Hretry;
              [ destruct (calculateDelay _ _ _ _ _) as [delay w2] eqn:Hdelay;
                destruct (sleep _ _ _ _) as [[[]|cancel] w3] eqn:Hsleep
              | ] ] ] ];
  inversion H; subst; clear H.

Lemma attemptBody_not_Normal i m a st st' : body i m a st <> (Normal, st').
Proof. intro H. body_cases H. Qed.

Lemma attemptBody_Continue_lt i m a st st' :
  body i m a st = (Continue, st') -> (a < maxRetriesPerModel)%Z.
Proof.
  intro H. body_cases H.
  apply andb_true_iff in Hretry. destruct Hretry as [_ Hlt].
  now apply Z.ltb_lt.
Qed.

(** An attempt that ends in [continue] or [break] has pushed exactly one
    pair, for its own backend, and has told [onError] of the same
    failure. *)
Lemma attemptBody_records i m a st c st' :
  body i m a st = (c, st') -> c = Continue \/ c = Break ->
  exists e, errors st' = errors st ++ [(m, e)]
            /\ caught (trace st') = caught (trace st) ++ [(m, e)].
Proof.
  intros H Hc. body_cases H; try (destruct Hc; discriminate).
  - exists error. simpl. split; [reflexivity|].
    now rewrite !caught_app, <- !app_assoc.
  - exists error.
    destruct (Z.of_nat i <? Z.of_nat (List.length models) - 1)%Z; simpl;
      (split; [reflexivity|]); now rewrite !caught_app, <- !app_assoc.
Qed.

(* ------------------------------------------------------------------ *)
(** ** The loops *)

Lemma attempts_eq fuel i m a st :
  attempts fuel i m a st =
  if (a <=? maxRetriesPerModel)%Z then
    match body i m a st with
    | (Continue, st') =>
        match fuel with
        | O => None
        | S fuel' => attempts fuel' i m (a + 1)%Z st'
        end
    | (Break, st') => Some (Normal, st')
    | (c, st') => Some (c, st')
    end
  else Some (Normal, st).
Proof. destruct fuel; reflexivity. Qed.

Lemma chain_cons fuel i rest m rest' st :
  rest = m :: rest' ->
  chain fuel i rest st =
  match attempts fuel i m 0 st with
  | Some (Normal, st') => chain fuel (S i) rest' st'
  | other => other
  end.
Proof. intros ->. reflexivity. Qed.

(** The inner loop never needs more iterations than there are values of
    [attempt] left. *)
Lemma attempts_total fuel : forall i m a st,
  (Z.to_nat (maxRetriesPerModel - a) <= fuel)%nat ->
  exists r, attempts fuel i m a st = Some r.
Proof.
  induction fuel as [|fuel IH]; intros i m a st Hfuel; rewrite attempts_eq;
    destruct (a <=? maxRetriesPerModel)%Z eqn:Hle; eauto;
    destruct (body i m a st) as [c st1] eqn:Hbody; destruct c; eauto.
  - apply attemptBody_Continue_lt in Hbody. lia.
  - apply attemptBody_Continue_lt in Hbody. apply IH. lia.
Qed.

(** More fuel than needed changes nothing. *)
Lemma attempts_fuel fuel1 : forall fuel2 i m a st,
  (Z.to_nat (maxRetriesPerModel - a) <= fuel1)%nat ->
  (Z.to_nat (maxRetriesPerModel - a) <= fuel2)%nat ->
  attempts fuel1 i m a st = attempts fuel2 i m a st.
Proof.
  induction fuel1 as [|fuel1 IH]; intros fuel2 i m a st H1 H2;
    rewrite (attempts_eq fuel2), attempts_eq;
    destruct (a <=? maxRetriesPerModel)%Z eqn:Hle; try reflexivity;
    destruct (body i m a st) as [c st1] eqn:Hbody; destruct c; try reflexivity;
    apply attemptBody_Continue_lt in Hbody.
  - lia.
  - destruct fuel2 as [|fuel2]; [lia|]. apply IH; lia.
Qed.

Lemma chain_total : forall rest i st,
  exists r, chain fuel0 i rest st = Some r.
Proof.
  induction rest as [|m rest IH]; intros i st; simpl; eauto.
  destruct (attempts_total fuel0 i m 0 st) as [[c st1] Hr].
  { unfold attemptFuel. lia. }
  rewrite Hr. destruct c; eauto.
Qed.

(** The loops end normally, by [return] or by [throw]. *)
Lemma attempts_settles fuel : forall i m a st c st',
  attempts fuel i m a st = Some (c, st') ->
  c = Normal \/ (exists v, c = Return v) \/ (exists e, c = Throw e).
Proof.
  induction fuel as [|fuel IH]; intros i m a st c st' H;
    rewrite attempts_eq in H;
    (destruct (a <=? maxRetriesPerModel)%Z; [|inversion H; now left]);
    destruct (body i m a st) as [c1 st1] eqn:Hbody;
    destruct c1; try (inversion H; subst; eauto; fail);
    try (now apply attemptBody_not_Normal in Hbody).
Qed.

Lemma chain_settles : forall rest i st c st',
  chain fuel0 i rest st = Some (c, st') ->
  c = Normal \/ (exists v, c = Return v) \/ (exists e, c = Throw e).
Proof.
  induction rest as [|m rest IH]; intros i st c st' H; simpl in H.
  - inversion H. now left.
  - destruct (attempts fuel0 i m 0 st) as [[c1 st1]|] eqn:Hat; [|discriminate].
    pose proof (attempts_settles _ _ _ _ _ _ _ Hat) as Hc1.
    destruct c1; try (inversion H; subst; exact Hc1; fail).
    eapply IH; exact H.
Qed.

(** [executeWithFallback] always settles: it returns or it throws. *)
Theorem executeWithFallback_total (w : W) :
  exists c st, execute w = Some (c, st)
               /\ ((exists v, c = Return v) \/ (exists e, c = Throw e)).
Proof.
  unfold executeWithFallback.
  destruct (chain_total models 0 (start w)) as [[c st] Hr]. rewrite Hr.
  destruct (chain_settles _ _ _ _ _ Hr) as [->|[[v ->]|[e ->]]]; eauto 7.
Qed.

(* ------------------------------------------------------------------ *)
(** ** What the accumulated list holds *)

(** When the inner loop ends normally it has pushed one pair per attempt
    it made, all for its own backend, and [onError] has seen the same
    failures. *)
Lemma attempts_Normal fuel : forall i m a st st',
  attempts fuel i m a st = Some (Normal, st') ->
  exists new,
    errors st' = errors st ++ new
    /\ caught (trace st') = caught (trace st) ++ new
    /\ map fst new = repeat m (List.length new)
    /\ (Z.of_nat (List.length new) <= Z.max 0 (maxRetriesPerModel + 1 - a))%Z
    /\ ((a <= maxRetriesPerModel)%Z -> (1 <= List.length new)%nat).
Proof.
  induction fuel as [|fuel IH]; intros i m a st st' H;
    rewrite attempts_eq in H;
    (destruct (Z.leb_spec a maxRetriesPerModel) as [Hle|Hgt];
     [ | inversion H; subst; exists []; rewrite !app_nil_r; simpl;
         repeat split; trivial; lia ]);
    destruct (body i m a st) as [c st1] eqn:Hbody;
    destruct c; try discriminate;
    try (now apply attemptBody_not_Normal in Hbody).
  - (* break *)
    inversion H; subst.
    destruct (attemptBody_records _ _ _ _ _ _ Hbody) as (e & He & Hc); [tauto|].
    exists [(m, e)]. simpl. repeat split; trivial; lia.
  - (* continue *)
    pose proof (attemptBody_Continue_lt _ _ _ _ _ Hbody) as Hlt.
    destruct (attemptBody_records _ _ _ _ _ _ Hbody) as (e & He & Hc); [tauto|].
    destruct (IH _ _ _ _ _ H) as (new & Hnew & Hcaught & Hfst & Hlen & _).
    exists ((m, e) :: new). rewrite Hnew, Hcaught, He, Hc, <- !app_assoc.
    simpl. rewrite Hfst at 1. repeat split; trivial; lia.
  - (* break *)
    inversion H; subst.
    destruct (attemptBody_records _ _ _ _ _ _ Hbody) as (e & He & Hc); [tauto|].
    exists [(m, e)]. simpl. repeat split; trivial; lia.
Qed.

Lemma blocks_cons m rest k ks :
  blocks (m :: rest) (k :: ks) = repeat m k ++ blocks rest ks.
Proof. reflexivity. Qed.

Lemma chain_Normal :
  (0 <= maxRetriesPerModel)%Z ->
  forall rest i st st',
  chain fuel0 i rest st = Some (Normal, st') ->
  exists new counts,
    errors st' = errors st ++ new
    /\ caught (trace st') = caught (trace st) ++ new
    /\ List.length counts = List.length rest
    /\ Forall (fun k => (1 <= k)%nat
                        /\ (Z.of_nat k <= maxRetriesPerModel + 1)%Z) counts
    /\ map fst new = blocks rest counts.
Proof.
  intros Hmax. induction rest as [|m rest IH]; intros i st st' H; simpl in H.
  - inversion H; subst. exists [], []. rewrite !app_nil_r. auto.
  - destruct (attempts fuel0 i m 0 st) as [[c st1]|] eqn:Hat; [|discriminate].
    destruct c; try discriminate.
    destruct (attempts_Normal _ _ _ _ _ _ Hat)
      as (new1 & He1 & Hc1 & Hfst1 & Hlen1 & Hpos1).
    destruct (IH _ _ _ H) as (new2 & counts & He2 & Hc2 & Hlen & Hall & Hfst2).
    exists (new1 ++ new2), (List.length new1 :: counts).
    rewrite He2, Hc2, He1, Hc1, <- !app_assoc, map_app, blocks_cons.
    rewrite Hfst1, Hfst2. simpl. repeat split; trivial.
    + now rewrite Hlen.
    + constructor; [|exact Hall]. split; [apply Hpos1; lia | lia].
Qed.

Lemma blocks_ones : forall rest counts,
  List.length counts = List.length rest ->
  Forall (fun k => k = 1%nat) counts ->
  blocks rest counts = rest.
Proof.
  induction rest as [|m rest IH]; intros [|k counts] Hlen Hall;
    try discriminate; [reflexivity|].
  inversion Hall; subst. rewrite blocks_cons. simpl. f_equal.
  apply IH; [now inversion Hlen | assumption].
Qed.

(** With a negative budget no attempt is made on any backend. *)
Lemma chain_no_attempts :
  (maxRetriesPerModel < 0)%Z ->
  forall fuel rest i st, chain fuel i rest st = Some (Normal, st).
Proof.
  intros Hneg fuel. induction rest as [|m rest IH]; intros i st; simpl;
    [reflexivity|].
  rewrite attempts_eq. destruct (Z.leb_spec 0 maxRetriesPerModel); [lia|].
  apply IH.
Qed.

(** C1, as stated, fails: a backend that is retried once and fails again
    is recorded twice. *)
Lemma retried_backend_is_recorded_twice :
  let a := Sim.mockModel "a" in
  let e := APICallError "Server error on a" (Some 500%Z) true in
  exists st,
    Sim.run [a] 1 (Sim.always Sim.fail500) Sim.noSignal
    = Some (Throw (newAllModelsExhaustedError [(a, e); (a, e)]), st)
    /\ exhausts (Sim.constantRandom (1 # 2)) Sim.tick [a] 1 1000 30000
                defaultShouldRetry
                (Sim.mockOperation (Sim.always Sim.fail500)) Sim.noSignal
                0%nat st
    /\ errors st = [(a, e); (a, e)]
    /\ map fst (errors st) <> [a].
Proof.
  eexists. split; [vm_compute; reflexivity|].
  split; [vm_compute; reflexivity|].
  split; [reflexivity|]. discriminate.
Qed.

(* ------------------------------------------------------------------ *)
(** ** Degenerate budgets and early cancellation *)

(** C10: with a negative budget, a non-empty chain and no active signal,
    no backend is invoked, no observer is called, and the call rejects with
    the aggregate error over the empty list. *)
Theorem negative_budget_exhausts_without_attempt (w : W) :
  (maxRetriesPerModel < 0)%Z ->
  models <> [] ->
  signalAborted (abortSignal options) w = false ->
  exists st,
    execute w = Some (Throw (newAllModelsExhaustedError []), st)
    /\ errors st = [] /\ trace st = [] /\ world st = w.
Proof.
  intros Hneg _ _. exists (start w). unfold executeWithFallback.
  rewrite (chain_no_attempts Hneg). auto.
Qed.

Lemma attemptBody_aborted i m a st :
  signalAborted (abortSignal options) (world st) = true ->
  body i m a st = (Throw (abortReason (abortSignal options) (world st)), st).
Proof. intros H. unfold attemptBody. now rewrite H. Qed.

(** C5, as stated, fails: with a negative budget the signal is never looked
    at, and the call rejects with the aggregate error. *)
Lemma aborted_signal_ignored_by_negative_budget :
  let a := Sim.mockModel "a" in
  let options := Sim.withSignal (Sim.abortAt 0 None) in
  signalAborted (abortSignal options) 0%nat = true
  /\ Sim.run [a] (-1) (Sim.always Sim.succeed) options
     = Some (Throw (newAllModelsExhaustedError []),
             {| errors := []; world := 0%nat; trace := [] |})
  /\ newAllModelsExhaustedError []
     <> abortReason (abortSignal options) 0%nat.
Proof. repeat split. discriminate. Qed.

(** C5, amended: for a non-empty chain and a budget that is not negative, a
    signal that is active before the first attempt makes the call fail with
    the cancellation failure, with no backend invoked and no observer
    called. *)
Theorem aborted_before_first_attempt (w : W) :
  (0 <= maxRetriesPerModel)%Z ->
  models <> [] ->
  signalAborted (abortSignal options) w = true ->
  exists st,
    execute w = Some (Throw (abortReason (abortSignal options) w), st)
    /\ errors st = [] /\ trace st = [] /\ world st = w.
Proof.
  intros Hmax Hne Hab. exists (start w). unfold executeWithFallback.
  destruct models as [|m rest] eqn:Hmodels; [now elim Hne|].
  rewrite <- Hmodels, (chain_cons _ _ _ _ _ _ Hmodels), attempts_eq.
  destruct (Z.leb_spec 0 maxRetriesPerModel); [|lia].
  rewrite attemptBody_aborted by exact Hab. auto.
Qed.

(* ------------------------------------------------------------------ *)
(** ** From a point of the run to its end *)

Lemma skipn_nth_error {A} : forall (l : list A) n x,
  nth_error l n = Some x -> skipn n l = x :: skipn (S n) l.
Proof.
  induction l as [|y l IH]; intros [|n] x H; try discriminate.
  - now inversion H.
  - simpl in H. simpl. now rewrite (IH _ _ H).
Qed.

(** From a point where the body of the inner loop is entered, the call ends
    the way the rest of the two loops ends. *)
Lemma Reaches_resume w i m a st :
  Reaches random timer models maxRetriesPerModel baseDelayMs maxDelayMs
          shouldRetry operation options w i m a st ->
  (a <= maxRetriesPerModel)%Z
  /\ nth_error models i = Some m
  /\ forall fuel, (Z.to_nat (maxRetriesPerModel - a) <= fuel)%nat ->
     execute w =
     match
       match attempts fuel i m a st with
       | Some (Normal, st') => chain fuel0 (S i) (skipn (S i) models) st'
       | other => other
       end
     with
     | Some (Normal, st') =>
         Some (Throw (newAllModelsExhaustedError (errors st')), st')
     | other => other
     end.
Proof.
  induction 1 as [m Hnth Hmax
                 | i m a st st' Hreach (Hle & Hnth & IH) Hbody Hnext
                 | i m a st st' m' Hreach (Hle & Hnth & IH) Hbody Hnth' Hmax].
  - repeat split; trivial. intros fuel Hfuel.
    unfold executeWithFallback.
    pose proof (skipn_nth_error _ _ _ Hnth) as Hmodels.
    change (skipn 0 models) with models in Hmodels.
    rewrite (chain_cons _ _ _ _ _ _ Hmodels).
    rewrite (attempts_fuel fuel0 fuel); [reflexivity | unfold attemptFuel; lia | lia].
  - repeat split; trivial. intros fuel Hfuel.
    rewrite (IH (S fuel)) by lia. rewrite (attempts_eq (S fuel)).
    destruct (Z.leb_spec a maxRetriesPerModel); [|lia].
    now rewrite Hbody.
  - repeat split; trivial. intros fuel Hfuel.
    rewrite (IH (Z.to_nat (maxRetriesPerModel - a))) by lia.
    rewrite attempts_eq.
    destruct (Z.leb_spec a maxRetriesPerModel); [|lia].
    rewrite Hbody, (skipn_nth_error _ _ _ Hnth'). simpl.
    rewrite (attempts_fuel fuel0 fuel); [reflexivity | unfold attemptFuel; lia | lia].
Qed.

(** An attempt that returns or throws ends the whole call. *)
Lemma Reaches_settles w i m a st c st' :
  Reaches random timer models maxRetriesPerModel baseDelayMs maxDelayMs
          shouldRetry operation options w i m a st ->
  body i m a st = (c, st') ->
  (exists v, c = Return v) \/ (exists e, c = Throw e) ->
  execute w = Some (c, st').
Proof.
  intros Hreach Hbody Hc.
  destruct (Reaches_resume _ _ _ _ _ Hreach) as (Hle & _ & Hrun).
  rewrite (Hrun _ (Nat.le_refl _)), attempts_eq.
  destruct (Z.leb_spec a maxRetriesPerModel); [|lia].
  rewrite Hbody. destruct Hc as [[v ->]|[e ->]]; reflexivity.
Qed.

(* ------------------------------------------------------------------ *)
(** ** Fatal failures and cancellation during the backoff *)

Lemma attemptBody_throw i m a st e w1 :
  signalAborted (abortSignal options) (world st) = false ->
  operation m (world st) = (Threw e, w1) ->
  action (shouldRetry e) = throw ->
  body i m a st
  = (Throw e,
     {| errors := errors st; world := w1;
        trace := trace st ++ [Invoked i m; ErrorEvent i m e (shouldRetry e)] |}).
Proof.
  intros Hab Hop Hcl. unfold attemptBody. rewrite Hab, Hop, Hcl. simpl.
  unfold emit, setWorld. simpl. now rewrite <- app_assoc.
Qed.

(** C6: wherever in the run a caught failure is classified [throw], the
    call throws that very failure; [onError] is the last observer called,
    and the accumulated list is as it was before the attempt. *)
Theorem throw_classification_reraises w i m a st e w1 :
  Reaches random timer models maxRetriesPerModel baseDelayMs maxDelayMs
          shouldRetry operation options w i m a st ->
  signalAborted (abortSignal options) (world st) = false ->
  operation m (world st) = (Threw e, w1) ->
  action (shouldRetry e) = throw ->
  exists st',
    execute w = Some (Throw e, st')
    /\ trace st' = trace st ++ [Invoked i m; ErrorEvent i m e (shouldRetry e)]
    /\ errors st' = errors st
    /\ world st' = w1.
Proof.
  intros Hreach Hab Hop Hcl.
  pose proof (attemptBody_throw i m a st e w1 Hab Hop Hcl) as Hbody.
  eexists. split.
  - exact (Reaches_settles _ _ _ _ _ _ _ Hreach Hbody
                           (or_intror (ex_intro _ e eq_refl))).
  - auto.
Qed.

Lemma attemptBody_cancelled_sleep i m a st e w1 delay w2 :
  signalAborted (abortSignal options) (world st) = false ->
  operation m (world st) = (Threw e, w1) ->
  action (shouldRetry e) = retry ->
  (a < maxRetriesPerModel)%Z ->
  calculateDelay random a baseDelayMs maxDelayMs w1 = (delay, w2) ->
  signalAborted (abortSignal options) w2 = false ->
  signalAborted (abortSignal options) (timer delay (abortSignal options) w2)
  = true ->
  body i m a st
  = (Throw (abortReason (abortSignal options)
                        (timer delay (abortSignal options) w2)),
     {| errors := errors st ++ [(m, e)];
        world := timer delay (abortSignal options) w2;
        trace := trace st
                 ++ [Invoked i m; ErrorEvent i m e (shouldRetry e);
                     RetryEvent i m (a + 1) maxRetriesPerModel e delay] |}).
Proof.
  intros Hab Hop Hcl Hlt Hdelay Hbefore Hduring.
  unfold attemptBody. rewrite Hab, Hop, Hcl. simpl.
  apply Z.ltb_lt in Hlt. rewrite Hlt, Hdelay. simpl.
  unfold sleep. rewrite Hbefore, Hduring.
  unfold emit, setWorld, pushError. simpl. now rewrite <- !app_assoc.
Qed.

(** C4: when the signal becomes active during the wait of a backoff, the
    call throws the reason of the signal, or the generic abort exception
    when there is none; the aggregate error is not built, and the call of
    [onRetry] that announced the wait is the last call of an observer. *)
Theorem cancellation_during_backoff w i m a st e w1 delay w2 :
  Reaches random timer models maxRetriesPerModel baseDelayMs maxDelayMs
          shouldRetry operation options w i m a st ->
  signalAborted (abortSignal options) (world st) = false ->
  operation m (world st) = (Threw e, w1) ->
  action (shouldRetry e) = retry ->
  (a < maxRetriesPerModel)%Z ->
  calculateDelay random a baseDelayMs maxDelayMs w1 = (delay, w2) ->
  signalAborted (abortSignal options) w2 = false ->
  signalAborted (abortSignal options) (timer delay (abortSignal options) w2)
  = true ->
  exists signal st',
    abortSignal options = Some signal
    /\ execute w
       = Some (Throw match reason signal (world st') with
                     | Some r => r
                     | None => DOMException "Aborted" "AbortError"
                     end, st')
    /\ world st' = timer delay (abortSignal options) w2
    /\ trace st' = trace st
                   ++ [Invoked i m; ErrorEvent i m e (shouldRetry e);
                       RetryEvent i m (a + 1) maxRetriesPerModel e delay].
Proof.
  intros Hreach Hab Hop Hcl Hlt Hdelay Hbefore Hduring.
  pose proof (attemptBody_cancelled_sleep i m a st e w1 delay w2
                Hab Hop Hcl Hlt Hdelay Hbefore Hduring) as Hbody.
  pose proof (Reaches_settles _ _ _ _ _ _ _ Hreach Hbody
                (or_intror (ex_intro _ _ eq_refl))) as Hrun.
  destruct (abortSignal options) as [signal|] eqn:Hsignal;
    [|discriminate Hduring].
  exists signal.
  exists {| errors := errors st ++ [(m, e)];
            world := timer delay (Some signal) w2;
            trace := trace st
                     ++ [Invoked i m; ErrorEvent i m e (shouldRetry e);
                         RetryEvent i m (a + 1) maxRetriesPerModel e delay] |}.
  split; [reflexivity|]. split; [exact Hrun | auto].
Qed.

(* ------------------------------------------------------------------ *)
(** ** What one attempt adds to the trace *)

Lemma attemptBody_step i m a st c st' :
  body i m a st = (c, st') ->
  nth_error models i = Some m ->
  (0 <= a <= maxRetriesPerModel)%Z ->
  exists evs,
    trace st' = trace st ++ evs
    /\ Forall (fun ev => eventIndex ev = i) evs
    /\ Forall (wellFormedEvent models maxRetriesPerModel shouldRetry) evs
    /\ (invocationsOf i evs <= 1)%nat
    /\ errors st' = errors st ++ recorded evs.
Proof.
  intros H Hnth Ha.
  assert (Hinv : (invocationsOf i [Invoked i m] <= 1)%nat)
    by (unfold invocationsOf; simpl; rewrite Nat.eqb_refl; simpl; lia).
  body_cases H.
  - exists []. rewrite !app_nil_r. repeat split; auto.
  - exists [Invoked i m]. simpl. rewrite app_nil_r.
    repeat split; auto; repeat constructor; auto.
  - exists [Invoked i m; ErrorEvent i m error (shouldRetry error)].
    simpl. rewrite Hthrow, app_nil_r, <- app_assoc.
    repeat split; auto; repeat constructor; auto.
  - apply andb_true_iff in Hretry. destruct Hretry as [Hact Hlt].
    apply Z.ltb_lt in Hlt.
    assert (Hretry : action (shouldRetry error) = retry)
      by (destruct (action (shouldRetry error)); simpl in Hact; congruence).
    exists [Invoked i m; ErrorEvent i m error (shouldRetry error);
            RetryEvent i m (a + 1) maxRetriesPerModel error delay].
    simpl. rewrite Hthrow, <- !app_assoc.
    repeat split; auto; repeat constructor; auto; lia.
  - apply andb_true_iff in Hretry. destruct Hretry as [Hact Hlt].
    apply Z.ltb_lt in Hlt.
    assert (Hretry : action (shouldRetry error) = retry)
      by (destruct (action (shouldRetry error)); simpl in Hact; congruence).
    exists [Invoked i m; ErrorEvent i m error (shouldRetry error);
            RetryEvent i m (a + 1) maxRetriesPerModel error delay].
    simpl. rewrite Hthrow, <- !app_assoc.
    repeat split; auto; repeat constructor; auto; lia.
  - assert (Hnot : action (shouldRetry error) <> throw)
      by (destruct (action (shouldRetry error)); simpl in Hthrow; congruence).
    destruct (Z.ltb_spec (Z.of_nat i) (Z.of_nat (List.length models) - 1))
      as [Hlast|Hlast].
    + destruct (nth_error models (i + 1)) as [m'|] eqn:Hnext;
        [|apply nth_error_None in Hnext; lia].
      exists [Invoked i m; ErrorEvent i m error (shouldRetry error);
              FallbackEvent i m (i + 1) (Some m') error (a + 1)].
      simpl. rewrite Hthrow, <- !app_assoc.
      rewrite Nat.add_1_r in *.
      repeat split; auto; repeat constructor; eauto; lia.
    + exists [Invoked i m; ErrorEvent i m error (shouldRetry error)].
      simpl. rewrite Hthrow, <- !app_assoc.
      repeat split; auto; repeat constructor; auto.
Qed.

(* ------------------------------------------------------------------ *)
(** ** Invariants of the run *)

Lemma recorded_app (tr1 tr2 : list Event) :
  recorded (tr1 ++ tr2) = recorded tr1 ++ recorded tr2.
Proof.
  induction tr1 as [|ev tr1 IH]; [reflexivity|].
  destruct ev; simpl; try exact IH.
  destruct (Action_eqb (action classification) throw); simpl; now rewrite IH.
Qed.

Lemma invocationsOf_app j (tr1 tr2 : list Event) :
  invocationsOf j (tr1 ++ tr2) = (invocationsOf j tr1 + invocationsOf j tr2)%nat.
Proof.
  unfold invocationsOf. induction tr1 as [|ev tr1 IH]; [reflexivity|].
  simpl. destruct (isInvocationOf j ev); simpl; now rewrite IH.
Qed.

Lemma invocationsOf_other j (tr : list Event) :
  Forall (fun ev => eventIndex ev <> j) tr -> invocationsOf j tr = 0%nat.
Proof.
  unfold invocationsOf. induction 1 as [|ev tr Hev _ IH]; [reflexivity|].
  simpl. destruct ev; simpl in *; try exact IH.
  destruct (Nat.eqb_spec modelIndex j); [contradiction|exact IH].
Qed.

Lemma StronglySorted_app_bound (i : nat) (l l' : list nat) :
  StronglySorted le l -> Forall (fun x => (x <= i)%nat) l ->
  Forall (fun x => x = i) l' ->
  StronglySorted le (l ++ l').
Proof.
  intros Hsorted Hbound Hsame.
  induction l as [|x l IH]; simpl.
  - clear Hsorted Hbound.
    induction l' as [|y l' IH']; constructor; inversion Hsame; subst.
    + now apply IH'.
    + eapply Forall_impl; [|eassumption]. simpl. intros z ->. constructor.
  - inversion Hsorted; subst. inversion Hbound; subst.
    constructor; [now apply IH|].
    apply Forall_app. split; [assumption|].
    eapply Forall_impl; [|exact Hsame]. simpl. intros y ->. assumption.
Qed.

Lemma Reaches_attempt_nonneg w i m a st :
  Reaches random timer models maxRetriesPerModel baseDelayMs maxDelayMs
          shouldRetry operation options w i m a st ->
  (0 <= a)%Z.
Proof. induction 1; lia. Qed.

(** An attempt made in a state that satisfies the invariant leaves a state
    that satisfies it for the next attempt. *)
Lemma traceInvariant_step i m a st c st' :
  traceInvariant models maxRetriesPerModel shouldRetry i a st ->
  nth_error models i = Some m ->
  (0 <= a <= maxRetriesPerModel)%Z ->
  body i m a st = (c, st') ->
  traceInvariant models maxRetriesPerModel shouldRetry i (a + 1) st'.
Proof.
  intros (Hwf & Hsorted & Hbound & Hcount & Hall & Herr) Hnth Ha Hbody.
  destruct (attemptBody_step _ _ _ _ _ _ Hbody Hnth Ha)
    as (evs & Htrace & Hindex & Hwf' & Hone & Herr').
  unfold traceInvariant. rewrite Htrace, Herr', Herr.
  repeat split.
  - apply Forall_app. now split.
  - rewrite map_app. apply StronglySorted_app_bound with (i := i).
    + assumption.
    + rewrite Forall_map. assumption.
    + rewrite Forall_map. assumption.
  - apply Forall_app. split; [assumption|].
    eapply Forall_impl; [|exact Hindex]. simpl. intros ev ->. lia.
  - rewrite invocationsOf_app. lia.
  - intros j. rewrite invocationsOf_app.
    destruct (Nat.eq_dec j i) as [->|Hne]; [lia|].
    rewrite (invocationsOf_other j evs).
    + specialize (Hall j). lia.
    + eapply Forall_impl; [|exact Hindex]. simpl. intros ev ->. congruence.
  - now rewrite recorded_app.
Qed.

Lemma traceInvariant_next i a (st : Run W) :
  traceInvariant models maxRetriesPerModel shouldRetry i a st ->
  traceInvariant models maxRetriesPerModel shouldRetry (S i) 0 st.
Proof.
  intros (Hwf & Hsorted & Hbound & Hcount & Hall & Herr).
  repeat split; trivial.
  - eapply Forall_impl; [|exact Hbound]. simpl. intros ev Hle. lia.
  - rewrite invocationsOf_other; [lia|].
    eapply Forall_impl; [|exact Hbound]. simpl. intros ev Hle. lia.
Qed.

Lemma traceInvariant_final i a (st : Run W) :
  traceInvariant models maxRetriesPerModel shouldRetry i a st ->
  finalInvariant models maxRetriesPerModel shouldRetry st.
Proof. intros (Hwf & Hsorted & _ & _ & Hall & Herr). now repeat split. Qed.

Lemma Reaches_invariant w i m a st :
  Reaches random timer models maxRetriesPerModel baseDelayMs maxDelayMs
          shouldRetry operation options w i m a st ->
  traceInvariant models maxRetriesPerModel shouldRetry i a st.
Proof.
  induction 1 as [m Hnth Hmax
                 | i m a st st' Hreach IH Hbody Hnext
                 | i m a st st' m' Hreach IH Hbody Hnth' Hmax].
  - repeat split; simpl; try constructor; try lia.
  - destruct (Reaches_resume _ _ _ _ _ Hreach) as (Hle & Hnth & _).
    pose proof (Reaches_attempt_nonneg _ _ _ _ _ Hreach).
    eapply traceInvariant_step; eauto.
  - destruct (Reaches_resume _ _ _ _ _ Hreach) as (Hle & Hnth & _).
    pose proof (Reaches_attempt_nonneg _ _ _ _ _ Hreach).
    eapply traceInvariant_next, traceInvariant_step; eauto.
Qed.

(* ------------------------------------------------------------------ *)
(** ** The last attempt of a run *)

Lemma skipn_cons_inv {A} : forall n (l : list A) x rest,
  skipn n l = x :: rest -> nth_error l n = Some x /\ skipn (S n) l = rest.
Proof.
  induction n as [|n IH]; intros [|y l] x rest H; try discriminate.
  - inversion H. now split.
  - apply (IH l x rest H).
Qed.

(** The inner loop ends with the attempt that breaks out of it, returns or
    throws. *)
Lemma attempts_last w i m fuel : forall a st c st',
  Reaches random timer models maxRetriesPerModel baseDelayMs maxDelayMs
          shouldRetry operation options w i m a st ->
  attempts fuel i m a st = Some (c, st') ->
  exists a' st0 c0,
    Reaches random timer models maxRetriesPerModel baseDelayMs maxDelayMs
            shouldRetry operation options w i m a' st0
    /\ body i m a' st0 = (c0, st')
    /\ ((c0 = Break /\ c = Normal)
        \/ (c0 = c /\ ((exists v, c = Return v) \/ (exists e, c = Throw e)))).
Proof.
  induction fuel as [|fuel IH]; intros a st c st' Hreach H;
    destruct (Reaches_resume _ _ _ _ _ Hreach) as (Hle & _ & _);
    rewrite attempts_eq in H;
    (destruct (Z.leb_spec a maxRetriesPerModel); [|lia]);
    destruct (body i m a st) as [c1 st1] eqn:Hbody;
    destruct c1; try discriminate;
    try (now apply attemptBody_not_Normal in Hbody);
    try (inversion H; subst; exists a, st; eexists; split; [exact Hreach|];
         split; [exact Hbody|]; eauto 6; fail).
  apply (IH _ _ _ _ (Reaches_retry Hreach Hbody
                       ltac:(apply attemptBody_Continue_lt in Hbody; lia)) H).
Qed.

(** The state in which the outer loop is left is the fresh state or the
    state after an attempt. *)
Lemma chain_last w :
  (0 <= maxRetriesPerModel)%Z ->
  forall rest i st c st',
  skipn i models = rest ->
  (i = 0%nat /\ st = start w)
  \/ (exists i0 m0 a0 st0,
        i = S i0
        /\ Reaches random timer models maxRetriesPerModel baseDelayMs maxDelayMs
                   shouldRetry operation options w i0 m0 a0 st0
        /\ body i0 m0 a0 st0 = (Break, st)) ->
  chain fuel0 i rest st = Some (c, st') ->
  (c = Normal /\ st' = start w)
  \/ (exists i' m' a' st0 c0,
        Reaches random timer models maxRetriesPerModel baseDelayMs maxDelayMs
                shouldRetry operation options w i' m' a' st0
        /\ body i' m' a' st0 = (c0, st')
        /\ ((c0 = Break /\ c = Normal)
            \/ (c0 = c /\ ((exists v, c = Return v) \/ (exists e, c = Throw e))))).
Proof.
  intros Hmax. induction rest as [|m rest IH]; intros i st c st' Hskip Hfrom H.
  - simpl in H. inversion H; subst.
    destruct Hfrom as [[_ ->]|(i0 & m0 & a0 & st0 & _ & Hreach & Hbody)].
    + now left.
    + right. exists i0, m0, a0, st0, Break. eauto.
  - destruct (skipn_cons_inv _ _ _ _ Hskip) as [Hnth Hskip'].
    assert (Hreach : Reaches random timer models maxRetriesPerModel baseDelayMs
                             maxDelayMs shouldRetry operation options
                             w i m 0 st).
    { destruct Hfrom as [[-> ->]|(i0 & m0 & a0 & st0 & -> & Hreach0 & Hbody0)].
      - now apply Reaches_first.
      - exact (Reaches_next Hreach0 Hbody0 Hnth Hmax). }
    simpl in H.
    destruct (attempts fuel0 i m 0 st) as [[c1 st1]|] eqn:Hat; [|discriminate].
    destruct (attempts_last _ _ _ _ _ _ _ _ Hreach Hat)
      as (a' & st0 & c0 & Hreach' & Hbody' & Hcase).
    destruct Hcase as [[-> ->]|[-> Hsettled]].
    + apply (IH (S i) st1 c st' Hskip'); [|exact H].
      right. exists i, m, a', st0. auto.
    + assert (Hsame : Some (c1, st1) = Some (c, st'))
        by (destruct Hsettled as [[v ->]|[e ->]]; exact H).
      inversion Hsame; subst. right. exists i, m, a', st0, c. auto.
Qed.

(** An invocation ends in the fresh state or in the state after an attempt
    that was reached. *)
Lemma execute_last w c st :
  execute w = Some (c, st) ->
  (st = start w /\ c = Throw (newAllModelsExhaustedError [])
   /\ exhausts random timer models maxRetriesPerModel baseDelayMs maxDelayMs
               shouldRetry operation options w st)
  \/ (exists i m a st0 c0,
        Reaches random timer models maxRetriesPerModel baseDelayMs maxDelayMs
                shouldRetry operation options w i m a st0
        /\ body i m a st0 = (c0, st)
        /\ ((c0 = Break /\ c = Throw (newAllModelsExhaustedError (errors st))
             /\ exhausts random timer models maxRetriesPerModel baseDelayMs
                         maxDelayMs shouldRetry operation options w st)
            \/ (c0 = c /\ ((exists v, c = Return v) \/ (exists e, c = Throw e))))).
Proof.
  unfold executeWithFallback, exhausts. intros H.
  destruct (Z.le_gt_cases 0 maxRetriesPerModel) as [Hmax|Hneg].
  - destruct (chain fuel0 0 models (start w)) as [[c1 st1]|] eqn:Hchain;
      [|discriminate].
    destruct (chain_last w Hmax models 0 (start w) c1 st1 eq_refl
                         (or_introl (conj eq_refl eq_refl)) Hchain)
      as [[-> ->]|(i & m & a & st0 & c0 & Hreach & Hbody & Hcase)].
    + inversion H; subst. left. auto.
    + right. exists i, m, a, st0, c0. split; [exact Hreach|].
      destruct Hcase as [[-> ->]|[-> Hsettled]].
      * inversion H; subst. auto.
      * assert (Hsame : Some (c1, st1) = Some (c, st))
          by (destruct Hsettled as [[v ->]|[e ->]]; exact H).
        inversion Hsame; subst. auto.
  - pose proof (chain_no_attempts Hneg fuel0 models 0%nat (start w)) as Hchain.
    rewrite Hchain in H. inversion H; subst. left. auto.
Qed.

(** The invariant holds where an invocation ends. *)
Lemma execute_finalInvariant w c st :
  execute w = Some (c, st) ->
  finalInvariant models maxRetriesPerModel shouldRetry st.
Proof.
  intros H.
  destruct (execute_last _ _ _ H)
    as [(-> & _ & _)|(i & m & a & st0 & c0 & Hreach & Hbody & _)].
  - repeat split; simpl; try constructor; try lia.
  - destruct (Reaches_resume _ _ _ _ _ Hreach) as (Hle & Hnth & _).
    pose proof (Reaches_attempt_nonneg _ _ _ _ _ Hreach) as Hpos.
    eapply traceInvariant_final, traceInvariant_step; eauto.
    now apply Reaches_invariant with (w := w) (m := m).
Qed.

(* ------------------------------------------------------------------ *)
(** ** The calls behind the accumulated list *)

Lemma invocations_app (tr1 tr2 : list Event) :
  invocations (tr1 ++ tr2) = invocations tr1 ++ invocations tr2.
Proof. apply filter_app. Qed.

(** An attempt that ends in [continue] or [break] is one invocation of the
    backend, which threw the failure that is pushed. *)
Lemma attemptBody_failed_call i m a st c st' :
  body i m a st = (c, st') -> c = Continue \/ c = Break ->
  exists e w1,
    operation m (world st) = (Threw e, w1)
    /\ errors st' = errors st ++ [(m, e)]
    /\ caught (trace st') = caught (trace st) ++ [(m, e)]
    /\ invocations (trace st') = invocations (trace st) ++ [Invoked i m].
Proof.
  intros H Hc. body_cases H; try (destruct Hc; discriminate).
  - exists error, w1. simpl.
    rewrite !caught_app, !invocations_app, <- !app_assoc. auto.
  - exists error, w1.
    destruct (Z.of_nat i <? Z.of_nat (List.length models) - 1)%Z; simpl;
      rewrite !caught_app, !invocations_app, <- !app_assoc;
      simpl; rewrite ?app_nil_r; auto.
Qed.

(** The failed calls of a run so far: each is an invocation of a backend
    of the chain that threw; together they are the invocations in the
    trace, the failures [onError] was told of and the pairs in [errors]. *)
Lemma calls_extend (st st' : Run W) i m e w1 :
  nth_error models i = Some m ->
  operation m (world st) = (Threw e, w1) ->
  errors st' = errors st ++ [(m, e)] ->
  caught (trace st') = caught (trace st) ++ [(m, e)] ->
  invocations (trace st') = invocations (trace st) ++ [Invoked i m] ->
  (exists calls : list (FailedCall W),
      Forall (fun k => nth_error models (callIndex k) = Some (callModel k)
                       /\ operation (callModel k) (callBefore k)
                          = (Threw (callFailure k), callAfter k)) calls
      /\ invocations (trace st)
         = map (fun k => Invoked (callIndex k) (callModel k)) calls
      /\ caught (trace st) = map (@callPair W) calls
      /\ errors st = map (@callPair W) calls) ->
  exists calls : list (FailedCall W),
    Forall (fun k => nth_error models (callIndex k) = Some (callModel k)
                     /\ operation (callModel k) (callBefore k)
                        = (Threw (callFailure k), callAfter k)) calls
    /\ invocations (trace st')
       = map (fun k => Invoked (callIndex k) (callModel k)) calls
    /\ caught (trace st') = map (@callPair W) calls
    /\ errors st' = map (@callPair W) calls.
Proof.
  intros Hnth Hop Herr Hcaught Hinv (calls & Hok & Hi & Hc & He).
  exists (calls ++ [{| callIndex := i; callModel := m;
                       callBefore := world st; callFailure := e;
                       callAfter := w1 |}]).
  rewrite !map_app, Herr, Hcaught, Hinv, Hi, Hc, He. simpl.
  repeat split; trivial.
  apply Forall_app. split; [exact Hok|]. constructor; [|constructor].
  simpl. auto.
Qed.

Lemma Reaches_calls w i m a st :
  Reaches random timer models maxRetriesPerModel baseDelayMs maxDelayMs
          shouldRetry operation options w i m a st ->
  exists calls : list (FailedCall W),
    Forall (fun k => nth_error models (callIndex k) = Some (callModel k)
                     /\ operation (callModel k) (callBefore k)
                        = (Threw (callFailure k), callAfter k)) calls
    /\ invocations (trace st)
       = map (fun k => Invoked (callIndex k) (callModel k)) calls
    /\ caught (trace st) = map (@callPair W) calls
    /\ errors st = map (@callPair W) calls.
Proof.
  induction 1 as [m Hnth Hmax
                 | i m a st st' Hreach IH Hbody Hnext
                 | i m a st st' m' Hreach IH Hbody Hnth' Hmax].
  - exists []. simpl. auto.
  - destruct (Reaches_resume _ _ _ _ _ Hreach) as (_ & Hnth & _).
    destruct (attemptBody_failed_call _ _ _ _ _ _ Hbody (or_introl eq_refl))
      as (e & w1 & Hop & Herr & Hcaught & Hinv).
    exact (calls_extend st st' i m e w1 Hnth Hop Herr Hcaught Hinv IH).
  - destruct (Reaches_resume _ _ _ _ _ Hreach) as (_ & Hnth & _).
    destruct (attemptBody_failed_call _ _ _ _ _ _ Hbody (or_intror eq_refl))
      as (e & w1 & Hop & Herr & Hcaught & Hinv).
    exact (calls_extend st st' i m e w1 Hnth Hop Herr Hcaught Hinv IH).
Qed.

(** The same for the state in which the chain is exhausted. *)
Lemma exhausts_calls w st :
  exhausts random timer models maxRetriesPerModel baseDelayMs maxDelayMs
           shouldRetry operation options w st ->
  exists calls : list (FailedCall W),
    Forall (fun k => nth_error models (callIndex k) = Some (callModel k)
                     /\ operation (callModel k) (callBefore k)
                        = (Threw (callFailure k), callAfter k)) calls
    /\ invocations (trace st)
       = map (fun k => Invoked (callIndex k) (callModel k)) calls
    /\ caught (trace st) = map (@callPair W) calls
    /\ errors st = map (@callPair W) calls.
Proof.
  unfold exhausts. intros Hex.
  assert (Hstart : st = start w ->
            exists calls : list (FailedCall W),
              Forall (fun k => nth_error models (callIndex k) = Some (callModel k)
                               /\ operation (callModel k) (callBefore k)
                                  = (Threw (callFailure k), callAfter k)) calls
              /\ invocations (trace st)
                 = map (fun k => Invoked (callIndex k) (callModel k)) calls
              /\ caught (trace st) = map (@callPair W) calls
              /\ errors st = map (@callPair W) calls).
  { intros ->. exists []. simpl. auto. }
  destruct (Z.le_gt_cases 0 maxRetriesPerModel) as [Hmax|Hneg].
  - destruct (chain_last w Hmax models 0 (start w) Normal st eq_refl
                         (or_introl (conj eq_refl eq_refl)) Hex)
      as [[_ Hst]|(i & m & a & st0 & c0 & Hreach & Hbody & Hcase)];
      [now apply Hstart|].
    destruct Hcase as [[-> _]|[-> [[v Hv]|[e He]]]]; try discriminate.
    destruct (Reaches_resume _ _ _ _ _ Hreach) as (_ & Hnth & _).
    destruct (attemptBody_failed_call _ _ _ _ _ _ Hbody (or_intror eq_refl))
      as (e & w1 & Hop & Herr & Hcaught & Hinv).
    exact (calls_extend st0 st i m e w1 Hnth Hop Herr Hcaught Hinv
                        (Reaches_calls _ _ _ _ _ Hreach)).
  - rewrite (chain_no_attempts Hneg) in Hex. apply Hstart. congruence.
Qed.

(** C1, amended: when the chain is exhausted, the aggregate error that is
    thrown contains exactly one pair for each invocation of a backend
    operation of the run - every one of them threw - and so one per failed
    attempt, not one per backend: the pair is the backend invoked and the
    failure it threw, in the order of the invocations, which is also the
    order in which [onError] was told of them.  For a budget that is not
    negative these are, backend by backend in chain order, between one and
    [maxRetriesPerModel + 1] pairs for every backend of the chain, and
    exactly one pair per backend when the budget is 0. *)
Theorem exhausted_error_records_each_caught_failure (w : W) (st : Run W) :
  exhausts random timer models maxRetriesPerModel baseDelayMs maxDelayMs
           shouldRetry operation options w st ->
  exists calls : list (FailedCall W),
    Forall (fun k => nth_error models (callIndex k) = Some (callModel k)
                     /\ operation (callModel k) (callBefore k)
                        = (Threw (callFailure k), callAfter k)) calls
    /\ invocations (trace st)
       = map (fun k => Invoked (callIndex k) (callModel k)) calls
    /\ caught (trace st) = map (@callPair W) calls
    /\ execute w
       = Some (Throw (AllModelsExhaustedError
                        ("All fallback models exhausted:" ++ newline
                         ++ String.concat newline
                              (summaryLines 0 (map (@callPair W) calls)))%string
                        (map (@callPair W) calls)),
               st)
    /\ ((0 <= maxRetriesPerModel)%Z ->
        exists counts,
          List.length counts = List.length models
          /\ Forall (fun k => (1 <= k)%nat
                              /\ (Z.of_nat k <= maxRetriesPerModel + 1)%Z) counts
          /\ map (@callModel W) calls = blocks models counts)
    /\ (maxRetriesPerModel = 0%Z -> map (@callModel W) calls = models).
Proof.
  intros Hex.
  destruct (exhausts_calls _ _ Hex) as (calls & Hok & Hinv & Hcaught & Herr).
  exists calls.
  assert (Hmodels : map (@callModel W) calls = map fst (errors st))
    by (rewrite Herr, map_map; reflexivity).
  assert (Hshape : (0 <= maxRetriesPerModel)%Z ->
            exists counts,
              List.length counts = List.length models
              /\ Forall (fun k => (1 <= k)%nat
                         /\ (Z.of_nat k <= maxRetriesPerModel + 1)%Z) counts
              /\ map (@callModel W) calls = blocks models counts).
  { intros Hmax.
    destruct (chain_Normal Hmax _ _ _ _ Hex)
      as (new & counts & He & _ & Hlen & Hall & Hfst).
    simpl in He. subst new. exists counts. rewrite Hmodels. auto. }
  repeat split; trivial.
  - unfold executeWithFallback. unfold exhausts in Hex. rewrite Hex, Herr.
    reflexivity.
  - intros Hzero. destruct Hshape as (counts & Hlen & Hall & Hfst); [lia|].
    rewrite Hfst. apply blocks_ones; [assumption|].
    eapply Forall_impl; [|exact Hall]. simpl. intros k Hk. lia.
Qed.

(* ------------------------------------------------------------------ *)
(** ** What a finished invocation has done *)

(** X7: a backend is invoked at most [maxRetriesPerModel + 1] times in one
    invocation, whatever the outcome. *)
Theorem invocation_budget w c st (j : nat) :
  execute w = Some (c, st) ->
  (invocationsOf j (trace st) <= Z.to_nat (maxRetriesPerModel + 1))%nat.
Proof.
  intros H. destruct (execute_finalInvariant _ _ _ H) as (_ & _ & Hall & _).
  specialize (Hall j). lia.
Qed.

(** X8: the backends are used in the order of the chain: in the trace of a
    finished invocation no event about a backend comes after an event
    about a later one. *)
Theorem backends_tried_in_chain_order w c st :
  execute w = Some (c, st) ->
  StronglySorted le (map eventIndex (trace st)).
Proof.
  intros H. now destruct (execute_finalInvariant _ _ _ H) as (_ & Hsorted & _).
Qed.

(** X9: every call of [onFallback] names a failed backend of the chain and
    the backend right after it, which exists: the next model is never
    undefined, and no fallback is announced for the last backend.  The
    failure it carries was not classified [throw], and [totalAttempts] is
    between 1 and [maxRetriesPerModel + 1]. *)
Theorem fallback_events_name_the_next_backend w c st i m next nextModel e k :
  executeWithFallback random timer models maxRetriesPerModel baseDelayMs
                      maxDelayMs shouldRetry operation options w
  = Some (c, st) ->
  In (FallbackEvent i m next nextModel e k) (trace st) ->
  nth_error models i = Some m
  /\ next = S i
  /\ (exists m', nextModel = Some m' /\ nth_error models (S i) = Some m')
  /\ (S i < List.length models)%nat
  /\ (1 <= k <= maxRetriesPerModel + 1)%Z
  /\ action (shouldRetry e) <> throw.
Proof.
  intros H Hin. destruct (execute_finalInvariant _ _ _ H) as (Hwf & _).
  rewrite Forall_forall in Hwf. specialize (Hwf _ Hin).
  unfold wellFormedEvent in Hwf.
  destruct Hwf as (Hnth & Hnext & Hmodel & (m' & Hsome) & Hk & Hcl).
  repeat split; trivial.
  - exists m'. split; [exact Hsome | congruence].
  - apply nth_error_Some. congruence.
  - lia.
  - lia.
Qed.

(** X10: for an integer budget [maxRetriesPerModel]: every call of
    [onRetry] is for a backend of the chain and a failure classified
    [retry]; its attempt number is between 1 and the budget.  So an
    integer budget of 0 or less never retries. *)
Theorem retry_events_within_budget w c st i m k maxRetries e delay :
  executeWithFallback random timer models maxRetriesPerModel baseDelayMs
                      maxDelayMs shouldRetry operation options w
  = Some (c, st) ->
  In (RetryEvent i m k maxRetries e delay) (trace st) ->
  nth_error models i = Some m
  /\ (1 <= k <= maxRetriesPerModel)%Z
  /\ maxRetries = maxRetriesPerModel
  /\ action (shouldRetry e) = retry.
Proof.
  intros H Hin. destruct (execute_finalInvariant _ _ _ H) as (Hwf & _).
  rewrite Forall_forall in Hwf. exact (Hwf _ Hin).
Qed.

(** X11: whatever the outcome, the accumulated list holds exactly the
    caught failures that were not classified [throw], in the order in
    which they were caught. *)
Theorem errors_are_the_recorded_failures w c st :
  execute w = Some (c, st) ->
  errors st = recorded (trace st).
Proof.
  intros H. now destruct (execute_finalInvariant _ _ _ H) as (_ & _ & _ & Herr).
Qed.

Lemma attemptBody_outcome i m a st0 c st :
  body i m a st0 = (c, st) ->
  (exists v, c = Return v) \/ (exists e, c = Throw e) ->
  (exists v, c = Return v /\ operation m (world st0) = (Returned v, world st))
  \/ (exists e, c = Throw e
                /\ operation m (world st0) = (Threw e, world st)
                /\ action (shouldRetry e) = throw)
  \/ (c = Throw (abortReason (abortSignal options) (world st))
      /\ signalAborted (abortSignal options) (world st) = true).
Proof.
  intros H Hc. body_cases H; try (destruct Hc as [[? ?]|[? ?]]; discriminate).
  - right; right. auto.
  - left. eauto.
  - right; left. exists error. repeat split; trivial.
    destruct (action (shouldRetry error)); simpl in Hthrow; congruence.
  - right; right. unfold sleep in Hsleep. simpl in Hsleep.
    destruct (signalAborted (abortSignal options) w2) eqn:Hbefore.
    + inversion Hsleep; subst. auto.
    + destruct (signalAborted (abortSignal options)
                              (timer delay (abortSignal options) w2))
        eqn:Hduring; inversion Hsleep; subst. auto.
Qed.

(** X12: when the classifier and the observers do not throw themselves,
    an invocation ends in at least one of these four ways (they are not
    exclusive: a thrown failure can also be the reason of the signal): it
    returns what a backend of the chain returned; it throws the aggregate
    error after the chain was exhausted; it throws, unchanged, a failure
    of a backend that was classified [throw]; or it throws the reason of
    the abort signal, which is then active. *)
Theorem outcome_cases w c st :
  execute w = Some (c, st) ->
  (exists v i m w0,
      c = Return v /\ nth_error models i = Some m
      /\ operation m w0 = (Returned v, world st))
  \/ (c = Throw (newAllModelsExhaustedError (errors st))
      /\ exhausts random timer models maxRetriesPerModel baseDelayMs maxDelayMs
                  shouldRetry operation options w st)
  \/ (exists e i m w0,
         c = Throw e /\ nth_error models i = Some m
         /\ operation m w0 = (Threw e, world st)
         /\ action (shouldRetry e) = throw)
  \/ (c = Throw (abortReason (abortSignal options) (world st))
      /\ signalAborted (abortSignal options) (world st) = true).
Proof.
  intros H.
  destruct (execute_last _ _ _ H)
    as [(-> & -> & Hex)
       |(i & m & a & st0 & c0 & Hreach & Hbody & Hcase)].
  - right; left. auto.
  - destruct (Reaches_resume _ _ _ _ _ Hreach) as (_ & Hnth & _).
    destruct Hcase as [(-> & -> & Hex)|[-> Hsettled]].
    + right; left. auto.
    + destruct (attemptBody_outcome _ _ _ _ _ _ Hbody Hsettled)
        as [(v & -> & Hop)|[(e & -> & Hop & Hcl)|[-> Hab]]].
      * left. exists v, i, m, (world st0). auto.
      * right; right; left. exists e, i, m, (world st0). auto.
      * right; right; right. auto.
Qed.

(* ------------------------------------------------------------------ *)
(** ** Success and cancellation at any point of the run *)

(** X13: wherever in the run a backend returns, the invocation returns that
    value at once: the invocation is the last entry of the trace, no
    observer is called for it and nothing is pushed. *)
Theorem first_success_is_returned w i m a st v w1 :
  Reaches random timer models maxRetriesPerModel baseDelayMs maxDelayMs
          shouldRetry operation options w i m a st ->
  signalAborted (abortSignal options) (world st) = false ->
  operation m (world st) = (Returned v, w1) ->
  exists st',
    execute w = Some (Return v, st')
    /\ trace st' = trace st ++ [Invoked i m]
    /\ errors st' = errors st
    /\ world st' = w1.
Proof.
  intros Hreach Hab Hop.
  assert (Hbody : body i m a st
                  = (Return v, emit (Invoked i m) (setWorld w1 st))).
  { unfold attemptBody. now rewrite Hab, Hop. }
  eexists. split.
  - exact (Reaches_settles _ _ _ _ _ _ _ Hreach Hbody
                           (or_introl (ex_intro _ v eq_refl))).
  - auto.
Qed.

(** X14: wherever in the run an attempt starts with the signal active, the
    invocation throws the reason of the signal without invoking the
    backend: the trace, the accumulated list and the world stay as they
    are. *)
Theorem cancellation_before_an_attempt w i m a st :
  Reaches random timer models maxRetriesPerModel baseDelayMs maxDelayMs
          shouldRetry operation options w i m a st ->
  signalAborted (abortSignal options) (world st) = true ->
  execute w = Some (Throw (abortReason (abortSignal options) (world st)), st).
Proof.
  intros Hreach Hab.
  exact (Reaches_settles _ _ _ _ _ _ _ Hreach (attemptBody_aborted i m a st Hab)
                         (or_intror (ex_intro _ _ eq_refl))).
Qed.

(** X15: when the signal turns active while a backend is failing with a
    failure that is to be retried, the signal is noticed by [sleep] only:
    [onError] and [onRetry] are still called and the failure is still
    pushed, then the invocation throws the reason of the signal without
    waiting. *)
Theorem cancellation_noticed_by_sleep w i m a st e w1 delay w2 :
  Reaches random timer models maxRetriesPerModel baseDelayMs maxDelayMs
          shouldRetry operation options w i m a st ->
  signalAborted (abortSignal options) (world st) = false ->
  operation m (world st) = (Threw e, w1) ->
  action (shouldRetry e) = retry ->
  (a < maxRetriesPerModel)%Z ->
  calculateDelay random a baseDelayMs maxDelayMs w1 = (delay, w2) ->
  signalAborted (abortSignal options) w2 = true ->
  exists st',
    execute w = Some (Throw (abortReason (abortSignal options) w2), st')
    /\ world st' = w2
    /\ errors st' = errors st ++ [(m, e)]
    /\ trace st' = trace st
                   ++ [Invoked i m; ErrorEvent i m e (shouldRetry e);
                       RetryEvent i m (a + 1) maxRetriesPerModel e delay].
Proof.
  intros Hreach Hab Hop Hcl Hlt Hdelay Hnow.
  assert (Hbody :
    body i m a st
    = (Throw (abortReason (abortSignal options) w2),
       {| errors := errors st ++ [(m, e)];
          world := w2;
          trace := trace st
                   ++ [Invoked i m; ErrorEvent i m e (shouldRetry e);
                       RetryEvent i m (a + 1) maxRetriesPerModel e delay] |})).
  { unfold attemptBody. rewrite Hab, Hop, Hcl. simpl.
    apply Z.ltb_lt in Hlt. rewrite Hlt, Hdelay. simpl.
    unfold sleep. simpl. rewrite Hnow.
    unfold emit, setWorld, pushError. simpl. now rewrite <- !app_assoc. }
  eexists. split.
  - exact (Reaches_settles _ _ _ _ _ _ _ Hreach Hbody
                           (or_intror (ex_intro _ _ eq_refl))).
  - auto.
Qed.

(* ------------------------------------------------------------------ *)
(** ** When every attempt fails *)

Section AlwaysFailing.

Hypothesis never_aborted :
  forall w0, signalAborted (abortSignal options) w0 = false.
Hypothesis always_failing :
  forall m w0, In m models ->
  exists e w1, operation m w0 = (Threw e, w1)
               /\ action (shouldRetry e) <> throw.

Lemma attemptBody_failing i m a st :
  In m models ->
  exists st', body i m a st = (Continue, st') \/ body i m a st = (Break, st').
Proof.
  intros Hin. destruct (always_failing m (world st) Hin) as (e & w1 & Hop & Hcl).
  unfold attemptBody. rewrite never_aborted, Hop. simpl.
  destruct (Action_eqb (action (shouldRetry e)) throw) eqn:Hthrow.
  - destruct (action (shouldRetry e)); simpl in Hthrow; congruence.
  - destruct (Action_eqb (action (shouldRetry e)) retry
              && (a <? maxRetriesPerModel)%Z); [|eauto].
    destruct (calculateDelay _ _ _ _ _) as [delay w2]. simpl.
    unfold sleep. simpl. rewrite !never_aborted. eauto.
Qed.

Lemma attempts_failing i m fuel : forall a st c st',
  In m models ->
  attempts fuel i m a st = Some (c, st') -> c = Normal.
Proof.
  induction fuel as [|fuel IH]; intros a st c st' Hin H;
    rewrite attempts_eq in H;
    (destruct (a <=? maxRetriesPerModel)%Z; [|now inversion H]);
    destruct (attemptBody_failing i m a st Hin) as [st1 [Hb|Hb]];
    rewrite Hb in H; try discriminate; try (now inversion H).
  exact (IH _ _ _ _ Hin H).
Qed.

Lemma chain_failing : forall rest i st c st',
  incl rest models ->
  chain fuel0 i rest st = Some (c, st') -> c = Normal.
Proof.
  induction rest as [|m rest IH]; intros i st c st' Hincl H; simpl in H.
  - now inversion H.
  - destruct (attempts fuel0 i m 0 st) as [[c1 st1]|] eqn:Hat; [|discriminate].
    assert (c1 = Normal)
      by (eapply attempts_failing; [apply Hincl; now left | exact Hat]).
    subst c1. apply (IH (S i) st1 c st'); [|exact H].
    intros x Hx. apply Hincl. now right.
Qed.

(** X16: for an integer budget that is not negative: when the signal
    never turns active and every attempt on a backend of the chain fails
    with a failure that is not classified [throw], the invocation tries
    every backend of the chain and throws the aggregate error, written
    out below, whose list holds, backend by backend in chain order,
    between one and [maxRetriesPerModel + 1] pairs for every backend. *)
Theorem every_attempt_failing_exhausts w :
  (0 <= maxRetriesPerModel)%Z ->
  exists st counts,
    execute w
    = Some (Throw (AllModelsExhaustedError
                     ("All fallback models exhausted:" ++ newline
                      ++ String.concat newline (summaryLines 0 (errors st)))%string
                     (errors st)),
            st)
    /\ exhausts random timer models maxRetriesPerModel baseDelayMs maxDelayMs
                shouldRetry operation options w st
    /\ List.length counts = List.length models
    /\ Forall (fun k => (1 <= k)%nat
                        /\ (Z.of_nat k <= maxRetriesPerModel + 1)%Z) counts
    /\ map fst (errors st) = blocks models counts
    /\ errors st = caught (trace st).
Proof.
  intros Hmax.
  destruct (chain_total models 0 (start w)) as [[c st] Hchain].
  assert (c = Normal)
    by (eapply chain_failing; [apply incl_refl | exact Hchain]).
  subst c.
  destruct (chain_Normal Hmax _ _ _ _ Hchain)
    as (new & counts & He & Hc & Hlen & Hall & Hfst).
  simpl in He, Hc. subst new.
  exists st, counts.
  split; [unfold executeWithFallback; now rewrite Hchain|].
  split; [exact Hchain|]. auto.
Qed.

End AlwaysFailing.

End Orchestration.

(* ------------------------------------------------------------------ *)
(** ** The composite *)

Section CompositeProperties.

Variable W : Type.
Variable random : W -> Q * W.
Variable timer : Z -> option (AbortSignal W) -> W -> W.
Variables GenerateResult StreamResult : Type.
Variable backendGenerate :
  LanguageModelV3 -> LanguageModelV3CallOptions W -> W
  -> Outcome GenerateResult * W.
Variable backendStream :
  LanguageModelV3 -> LanguageModelV3CallOptions W -> W
  -> Outcome StreamResult * W.

Local Abbreviation create :=
  (createFallbackModel random timer backendGenerate backendStream).

(** C9: with an empty list of models the constructor throws the
    configuration error; no composite comes into being, so none of its
    operations can be invoked. *)
Theorem empty_chain_is_rejected (cfg : Config.t) :
  Config.models cfg = [] ->
  create cfg = Threw (Error "createFallbackModel requires at least one model").
Proof. intros Hempty. unfold createFallbackModel. now rewrite Hempty. Qed.

(** With at least one model the constructor returns the composite. *)
Lemma nonempty_chain_is_accepted (cfg : Config.t) :
  Config.models cfg <> [] -> exists fm, create cfg = Returned fm.
Proof.
  intros Hne. unfold createFallbackModel.
  destruct (Config.models cfg); [now elim Hne|]. simpl. eauto.
Qed.


End CompositeProperties.

(* ------------------------------------------------------------------ *)
(** ** Runs in the scripted world *)

Local Abbreviation a := (Sim.mockModel "a").
Local Abbreviation b := (Sim.mockModel "b").
Local Abbreviation c := (Sim.mockModel "c").

(** Scenario A: the single backend succeeds at once. *)
Example scenario_A :
  Sim.run [a] 0 (Sim.always Sim.succeed) Sim.noSignal
  = Some (Return "Response from a",
          {| errors := []; world := 0%nat; trace := [Invoked 0 a] |}).
Proof. reflexivity. Qed.

(** Scenario B: backend 0 is rate limited, backend 1 answers. *)
Example scenario_B :
  let e := APICallError "Rate limited on a" (Some 429%Z) true in
  Sim.run [a; b] 0 (Sim.byId [("a", Sim.fail429)]) Sim.noSignal
  = Some (Return "Response from b",
          {| errors := [(a, e)]; world := 0%nat;
             trace := [Invoked 0 a; ErrorEvent 0 a e {| action := fallback |};
                       FallbackEvent 0 a 1 (Some b) e 1; Invoked 1 b] |}).
Proof. vm_compute. reflexivity. Qed.

(** Scenario C: backend 0 fails with 500 twice under a budget of 1. *)
Example scenario_C :
  let e := APICallError "Server error on a" (Some 500%Z) true in
  Sim.run [a; b] 1 (Sim.byId [("a", Sim.fail500)]) Sim.noSignal
  = Some (Return "Response from b",
          {| errors := [(a, e); (a, e)]; world := 1%nat;
             trace := [Invoked 0 a; ErrorEvent 0 a e {| action := retry |};
                       RetryEvent 0 a 1 1 e 750;
                       Invoked 0 a; ErrorEvent 0 a e {| action := retry |};
                       FallbackEvent 0 a 1 (Some b) e 2; Invoked 1 b] |}).
Proof. vm_compute. reflexivity. Qed.

(** Scenario F: backend 0 fails with 401. *)
Example scenario_F :
  let e := APICallError "Unauthorized on a" (Some 401%Z) false in
  Sim.run [a; b] 0 (Sim.byId [("a", Sim.fail401)]) Sim.noSignal
  = Some (Throw e,
          {| errors := []; world := 0%nat;
             trace := [Invoked 0 a; ErrorEvent 0 a e {| action := throw |}] |}).
Proof. vm_compute. reflexivity. Qed.

Lemma exhausted_error_records_each_caught_failure_witness :
  let operation := Sim.mockOperation (Sim.always Sim.fail500) in
  let st := Sim.finalState
              (Sim.run [a; b] 1 (Sim.always Sim.fail500) Sim.noSignal) in
  exists calls : list (FailedCall nat),
    Forall (fun k => nth_error [a; b] (callIndex k) = Some (callModel k)
                     /\ operation (callModel k) (callBefore k)
                        = (Threw (callFailure k), callAfter k)) calls
    /\ invocations (trace st)
       = map (fun k => Invoked (callIndex k) (callModel k)) calls
    /\ caught (trace st) = map (@callPair nat) calls
    /\ Sim.run [a; b] 1 (Sim.always Sim.fail500) Sim.noSignal
       = Some (Throw (AllModelsExhaustedError
                        ("All fallback models exhausted:" ++ newline
                         ++ String.concat newline
                              (summaryLines 0 (map (@callPair nat) calls)))%string
                        (map (@callPair nat) calls)),
               st)
    /\ ((0 <= 1)%Z ->
        exists counts,
          List.length counts = List.length [a; b]
          /\ Forall (fun k => (1 <= k)%nat /\ (Z.of_nat k <= 1 + 1)%Z) counts
          /\ map (@callModel nat) calls = blocks [a; b] counts)
    /\ (1%Z = 0%Z -> map (@callModel nat) calls = [a; b]).
Proof.
  apply (exhausted_error_records_each_caught_failure
           nat (Sim.constantRandom (1 # 2)) Sim.tick [a; b] 1 1000 30000
           defaultShouldRetry string
           (Sim.mockOperation (Sim.always Sim.fail500)) Sim.noSignal 0%nat).
  vm_compute. reflexivity.
Defined.

(** The run of the witness, written out: four invocations, four pairs. *)
Example exhausted_error_of_two_retried_backends :
  let e1 := APICallError "Server error on a" (Some 500%Z) true in
  let e2 := APICallError "Server error on b" (Some 500%Z) true in
  exists message st,
    Sim.run [a; b] 1 (Sim.always Sim.fail500) Sim.noSignal
    = Some (Throw (AllModelsExhaustedError
                     message [(a, e1); (a, e1); (b, e2); (b, e2)]), st)
    /\ invocations (trace st)
       = [Invoked 0 a; Invoked 0 a; Invoked 1 b; Invoked 1 b].
Proof. do 2 eexists. split; vm_compute; reflexivity. Qed.

Lemma negative_budget_exhausts_without_attempt_witness :
  exists st,
    Sim.run [a; b] (-1) (Sim.always Sim.succeed) Sim.noSignal
    = Some (Throw (newAllModelsExhaustedError []), st)
    /\ errors st = [] /\ trace st = [] /\ world st = 0%nat.
Proof.
  apply (negative_budget_exhausts_without_attempt
           nat (Sim.constantRandom (1 # 2)) Sim.tick [a; b] (-1) 1000 30000
           defaultShouldRetry string
           (Sim.mockOperation (Sim.always Sim.succeed)) Sim.noSignal 0%nat).
  - lia.
  - discriminate.
  - reflexivity.
Defined.

Lemma aborted_before_first_attempt_witness :
  let options := Sim.withSignal (Sim.abortAt 0 (Some (NonError "stop"))) in
  exists st,
    Sim.run [a; b] 2 (Sim.always Sim.succeed) options
    = Some (Throw (NonError "stop"), st)
    /\ errors st = [] /\ trace st = [] /\ world st = 0%nat.
Proof.
  apply (aborted_before_first_attempt
           nat (Sim.constantRandom (1 # 2)) Sim.tick [a; b] 2 1000 30000
           defaultShouldRetry string
           (Sim.mockOperation (Sim.always Sim.succeed))
           (Sim.withSignal (Sim.abortAt 0 (Some (NonError "stop")))) 0%nat).
  - lia.
  - discriminate.
  - reflexivity.
Defined.

(** Backend 0 is rate limited and backend 1 answers 401: the fatal failure
    is met at index 1. *)
Lemma throw_classification_reraises_witness :
  let e0 := APICallError "Rate limited on a" (Some 429%Z) true in
  let e1 := APICallError "Unauthorized on b" (Some 401%Z) false in
  let before := [Invoked 0 a; ErrorEvent 0 a e0 {| action := fallback |};
                 FallbackEvent 0 a 1 (Some b) e0 1] in
  exists st',
    Sim.run [a; b; c] 0
            (Sim.byId [("a", Sim.fail429); ("b", Sim.fail401)]) Sim.noSignal
    = Some (Throw e1, st')
    /\ trace st' = before ++ [Invoked 1 b;
                              ErrorEvent 1 b e1 (defaultShouldRetry e1)]
    /\ errors st' = [(a, e0)]
    /\ world st' = 0%nat.
Proof.
  refine (throw_classification_reraises
            nat (Sim.constantRandom (1 # 2)) Sim.tick [a; b; c] 0 1000 30000
            defaultShouldRetry string
            (Sim.mockOperation
               (Sim.byId [("a", Sim.fail429); ("b", Sim.fail401)]))
            Sim.noSignal 0%nat 1%nat b 0%Z
            {| errors := [(a, APICallError "Rate limited on a" (Some 429%Z) true)];
               world := 0%nat;
               trace := [Invoked 0 a;
                         ErrorEvent 0 a
                           (APICallError "Rate limited on a" (Some 429%Z) true)
                           {| action := fallback |};
                         FallbackEvent 0 a 1 (Some b)
                           (APICallError "Rate limited on a" (Some 429%Z) true)
                           1] |}
            (APICallError "Unauthorized on b" (Some 401%Z) false) 0%nat
            _ _ _ _).
  - eapply Reaches_next with (model := a) (attempt := 0%Z).
    + apply Reaches_first; [reflexivity | lia].
    + vm_compute. reflexivity.
    + reflexivity.
    + lia.
  - reflexivity.
  - reflexivity.
  - reflexivity.
Defined.

(** The signal fires during the first backoff wait of backend 0. *)
Lemma cancellation_during_backoff_witness :
  let e := APICallError "Server error on a" (Some 500%Z) true in
  let options := Sim.withSignal (Sim.abortAt 1 None) in
  exists signal st',
    abortSignal options = Some signal
    /\ Sim.run [a; b] 1 (Sim.always Sim.fail500) options
       = Some (Throw match reason signal (world st') with
                     | Some r => r
                     | None => DOMException "Aborted" "AbortError"
                     end, st')
    /\ world st' = Sim.tick 750 (abortSignal options) 0%nat
    /\ trace st' = [] ++ [Invoked 0 a;
                          ErrorEvent 0 a e (defaultShouldRetry e);
                          RetryEvent 0 a (0 + 1) 1 e 750].
Proof.
  refine (cancellation_during_backoff
            nat (Sim.constantRandom (1 # 2)) Sim.tick [a; b] 1 1000 30000
            defaultShouldRetry string
            (Sim.mockOperation (Sim.always Sim.fail500))
            (Sim.withSignal (Sim.abortAt 1 None)) 0%nat 0%nat a 0%Z
            (start 0%nat)
            (APICallError "Server error on a" (Some 500%Z) true) 0%nat
            750%Z 0%nat _ _ _ _ _ _ _ _).
  - apply Reaches_first; [reflexivity | lia].
  - reflexivity.
  - reflexivity.
  - reflexivity.
  - lia.
  - vm_compute. reflexivity.
  - reflexivity.
  - reflexivity.
Defined.

Lemma empty_chain_is_rejected_witness :
  Sim.create (Sim.always Sim.succeed) (Sim.config [] None)
  = Threw (Error "createFallbackModel requires at least one model").
Proof.
  apply (empty_chain_is_rejected
           nat (Sim.constantRandom (1 # 2)) Sim.tick string string
           (Sim.mockBackend (Sim.always Sim.succeed))
           (Sim.mockBackend (Sim.always Sim.succeed))
           (Sim.config [] None)).
  reflexivity.
Defined.


(** The message of the aggregate error of that run, character by
    character. *)
Example message_of_three_rate_limited :
  exists fm st errs,
    Sim.create (Sim.always Sim.fail429) (Sim.config [a; b; c] None)
    = Returned fm
    /\ doGenerate fm Sim.noSignal 0%nat
       = Some (Throw (AllModelsExhaustedError
                        ("All fallback models exhausted:" ++ newline
                         ++ "  [0] mock/a: Rate limited on a" ++ newline
                         ++ "  [1] mock/b: Rate limited on b" ++ newline
                         ++ "  [2] mock/c: Rate limited on c")%string
                        errs), st).
Proof. do 3 eexists. split; vm_compute; reflexivity. Qed.

(* ================================================================== *)
(** * Further properties of the code *)

(* ------------------------------------------------------------------ *)
(** ** The default classifier, completely *)

Lemma prefix_split (p s : string) :
  String.prefix p s = true -> exists post, s = (p ++ post)%string.
Proof.
  revert s. induction p as [|ch p IH]; intros s H.
  - exists s. reflexivity.
  - destruct s as [|ch' s]; [discriminate|]. simpl in H.
    destruct (Ascii.ascii_dec ch ch') as [->|_]; [|discriminate].
    destruct (IH _ H) as [post ->]. exists post. reflexivity.
Qed.

(** [includes] is the substring test. *)
Lemma includes_iff (needle haystack : string) :
  includes needle haystack = true
  <-> exists pre post, haystack = (pre ++ needle ++ post)%string.
Proof.
  split.
  - induction haystack as [|ch rest IH]; rewrite includes_eq;
      destruct (String.prefix needle _) eqn:Hp; intros H;
      try discriminate.
    + destruct (prefix_split _ _ Hp) as [post ->]. now exists ""%string, post.
    + destruct (prefix_split _ _ Hp) as [post ->]. now exists ""%string, post.
    + destruct (IH H) as (pre & post & ->).
      now exists (String ch pre), post.
  - intros (pre & post & ->). apply includes_app.
Qed.

(** C8, as stated, fails: a failed name lookup reported below [fetch] and
    the failed [fetch] of WebKit are transport failures, and both are
    thrown, not retried. *)
Lemma unrecognised_transport_failures_are_thrown :
  let lookup := Error "getaddrinfo ENOTFOUND api.example.com" in
  let webkit := TypeError "Load failed" in
  specTransportFailure lookup = true
  /\ defaultShouldRetry lookup = {| action := throw |}
  /\ defaultShouldRetry lookup <> {| action := retry |}
  /\ specTransportFailure webkit = true
  /\ defaultShouldRetry webkit = {| action := throw |}
  /\ defaultShouldRetry webkit <> {| action := retry |}.
Proof. repeat split; discriminate. Qed.

(** C8, amended: of the failures that do not come from the provider, the
    default classifier retries exactly the [TypeError]s whose message
    contains "fetch" - the way it recognises a failure of the transport -
    and throws every other one, other transport failures included. *)
Theorem transport_failure_classification (e : Failure) :
  match e with APICallError _ _ _ => False | _ => True end ->
  (defaultShouldRetry e = {| action := retry |}
   <-> exists pre post, e = TypeError (pre ++ "fetch" ++ post)%string)
  /\ (defaultShouldRetry e = {| action := throw |}
      <-> ~ exists pre post, e = TypeError (pre ++ "fetch" ++ post)%string).
Proof.
  intros Hother.
  assert (Hretry : defaultShouldRetry e = {| action := retry |}
                   <-> exists pre post, e = TypeError (pre ++ "fetch" ++ post)%string).
  { split.
    - destruct e as [| msg | | | |]; simpl; try discriminate; [contradiction|].
      destruct (includes "fetch" msg) eqn:Hin; [|discriminate]. intros _.
      apply includes_iff in Hin. destruct Hin as (pre & post & Heq).
      exists pre, post. now rewrite Heq.
    - intros (pre & post & He). subst e. unfold defaultShouldRetry.
      now rewrite includes_app. }
  split; [exact Hretry|]. rewrite <- Hretry. clear Hretry.
  assert (Hcases : defaultShouldRetry e = {| action := retry |}
                   \/ defaultShouldRetry e = {| action := throw |}).
  { destruct e as [| msg | | | |]; simpl; try contradiction; auto.
    destruct (includes "fetch" msg); auto. }
  destruct Hcases as [H|H]; rewrite H; split.
  - discriminate.
  - intros Hne. now elim Hne.
  - intros _. discriminate.
  - reflexivity.
Qed.

Lemma transport_failure_classification_witness :
  (defaultShouldRetry (TypeError "fetch failed") = {| action := retry |}
   <-> exists pre post,
         TypeError "fetch failed" = TypeError (pre ++ "fetch" ++ post)%string)
  /\ (defaultShouldRetry (TypeError "fetch failed") = {| action := throw |}
      <-> ~ exists pre post,
              TypeError "fetch failed" = TypeError (pre ++ "fetch" ++ post)%string).
Proof. apply (transport_failure_classification (TypeError "fetch failed")). exact I. Defined.

(** X1: the default classifier answers [fallback] for a failure of the
    provider with status 429, whatever its message and its retryable flag,
    and for no other failure. *)
Theorem default_fallback_iff (e : Failure) :
  action (defaultShouldRetry e) = fallback
  <-> exists message retryable, e = APICallError message (Some 429%Z) retryable.
Proof.
  split.
  - destruct e as [msg [s|] r| msg | | | |]; simpl; try discriminate.
    + destruct (Z.eqb_spec s 429) as [->|_]; [eauto|].
      destruct (s >=? 500)%Z, r; discriminate.
    + destruct r; discriminate.
    + destruct (includes "fetch" msg); discriminate.
  - intros (msg & r & ->). reflexivity.
Qed.

(** X2: the default classifier answers [retry] exactly for a failure of the
    provider whose status is not 429 and is at least 500 or whose retryable
    flag is set (also when it has no status), and for a [TypeError] whose
    message contains "fetch".  Every other failure is [throw]n or, for
    429, falls back. *)
Theorem default_retry_iff (e : Failure) :
  action (defaultShouldRetry e) = retry
  <-> (exists message status retryable,
          e = APICallError message status retryable
          /\ status <> Some 429%Z
          /\ ((exists s, status = Some s /\ (500 <= s)%Z) \/ retryable = true))
      \/ (exists pre post, e = TypeError (pre ++ "fetch" ++ post)%string).
Proof.
  split.
  - destruct e as [msg [s|] r| msg | | | |]; simpl; try discriminate.
    + destruct (Z.eqb_spec s 429) as [->|Hne]; [discriminate|].
      destruct (Z.geb_spec s 500) as [Hge|Hlt].
      * intros _. left. exists msg, (Some s), r.
        split; [reflexivity|]. split; [congruence|].
        left. exists s. split; [reflexivity|lia].
      * destruct r; [|discriminate]. intros _. left. exists msg, (Some s), true.
        split; [reflexivity|]. split; [congruence | now right].
    + destruct r; [|discriminate]. intros _. left. exists msg, None, true.
      split; [reflexivity|]. split; [discriminate | now right].
    + destruct (includes "fetch" msg) eqn:Hin; [|discriminate]. intros _.
      right. apply includes_iff in Hin. destruct Hin as (pre & post & ->).
      now exists pre, post.
  - intros [(msg & status & r & He & Hne & Hcase)|(pre & post & He)]; subst e.
    + destruct status as [s|]; simpl.
      * destruct (Z.eqb_spec s 429) as [->|_]; [now elim Hne|].
        destruct Hcase as [(s' & Hs' & Hge)|Hr]; [|subst r].
        -- inversion Hs'; subst s'.
           destruct (Z.geb_spec s 500); [reflexivity|lia].
        -- now destruct (s >=? 500)%Z.
      * destruct Hcase as [(s' & Hs' & _)|Hr]; [discriminate|now subst r].
    + unfold defaultShouldRetry. now rewrite includes_app.
Qed.

(* ------------------------------------------------------------------ *)
(** ** More on the backoff delay *)

Section BackoffShape.

Variable W : Type.
Variable random : W -> Q * W.

Local Open Scope Q_scope.

Lemma Math_round_monotone (x y : Q) :
  x <= y -> (Math_round x <= Math_round y)%Z.
Proof. intros H. unfold Math_round. apply Qfloor_resp_le. lra. Qed.

Lemma exponential_monotone (base cap : Q) (n n' : Z) :
  0 <= base -> (n <= n')%Z ->
  Qmin cap (base * Qpower 2 n) <= Qmin cap (base * Qpower 2 n').
Proof.
  intros Hbase Hn.
  assert (Hpow : Qpower 2 n <= Qpower 2 n')
    by (apply Qpower_le_compat_l; [exact Hn | discriminate]).
  assert (Hmul : base * Qpower 2 n <= base * Qpower 2 n') by nra.
  destruct (Q.min_spec cap (base * Qpower 2 n)) as [[H ->]|[H ->]];
    destruct (Q.min_spec cap (base * Qpower 2 n')) as [[H' ->]|[H' ->]]; lra.
Qed.

(** X3: where every step of the computation is exact in double
    arithmetic, and for a base and a cap that are not negative, the delay
    is never negative and never above the rounded cap, for every such
    attempt number and draw in [0, 1). *)
Theorem calculateDelay_within_cap (n : Z) (base cap : Q) (w : W) :
  computedExactly n base cap (fst (random w)) ->
  0 <= base -> 0 <= cap ->
  0 <= fst (random w) < 1 ->
  (0 <= fst (calculateDelay random n base cap w) <= Math_round cap)%Z.
Proof.
  intros _ Hbase Hcap [Hr0 Hr1]. unfold calculateDelay.
  destruct (random w) as [r w']; simpl in *.
  assert (Hpow : 0 <= Qpower 2 n) by (apply Qpower_0_le; discriminate).
  assert (Hexp : 0 <= base * Qpower 2 n) by nra.
  set (exponential := Qmin cap (base * Qpower 2 n)).
  assert (Hlo : 0 <= exponential).
  { unfold exponential.
    destruct (Q.min_spec cap (base * Qpower 2 n)) as [[_ ->]|[_ ->]]; lra. }
  assert (Hhi : exponential <= cap) by apply Q.le_min_l.
  split.
  - change 0%Z with (Math_round 0). apply Math_round_monotone. nra.
  - apply Math_round_monotone. nra.
Qed.

(** X4: where every step of both computations is exact in double
    arithmetic, and for a base that is not negative, a later attempt never
    waits less than an earlier one under the same draw. *)
Theorem calculateDelay_grows_with_attempt (n n' : Z) (base cap : Q) (w : W) :
  computedExactly n base cap (fst (random w)) ->
  computedExactly n' base cap (fst (random w)) ->
  0 <= base -> (n <= n')%Z ->
  0 <= fst (random w) ->
  (fst (calculateDelay random n base cap w)
   <= fst (calculateDelay random n' base cap w))%Z.
Proof.
  intros _ _ Hbase Hn Hr. unfold calculateDelay.
  destruct (random w) as [r w']; simpl in *.
  pose proof (exponential_monotone base cap n n' Hbase Hn) as Hexp.
  apply Math_round_monotone. nra.
Qed.

End BackoffShape.

(** Attempts 1 and 7 with the default delays and the draw 1/2. *)
Lemma computedExactly_second_attempt : computedExactly 1 1000 30000 (1 # 2).
Proof.
  repeat split.
  - double 1000%Z 0%Z.
  - double 30000%Z 0%Z.
  - double 1%Z (-1)%Z.
  - double 2%Z 0%Z.
  - double 2000%Z 0%Z.
  - double 1%Z (-2)%Z.
  - double 3%Z (-2)%Z.
  - double 1500%Z 0%Z.
Qed.

Lemma computedExactly_eighth_attempt : computedExactly 7 1000 30000 (1 # 2).
Proof.
  repeat split.
  - double 1000%Z 0%Z.
  - double 30000%Z 0%Z.
  - double 1%Z (-1)%Z.
  - double 128%Z 0%Z.
  - double 128000%Z 0%Z.
  - double 1%Z (-2)%Z.
  - double 3%Z (-2)%Z.
  - double 22500%Z 0%Z.
Qed.

Lemma calculateDelay_within_cap_witness :
  (0 <= fst (calculateDelay (Sim.constantRandom (1 # 2)) 7 1000 30000 0%nat)
   <= Math_round 30000)%Z.
Proof.
  apply (calculateDelay_within_cap nat (Sim.constantRandom (1 # 2))
                                   7 1000 30000 0%nat).
  - exact computedExactly_eighth_attempt.
  - unfold Qle. simpl. lia.
  - unfold Qle. simpl. lia.
  - unfold Qle, Qlt. simpl. lia.
Defined.

Lemma calculateDelay_grows_with_attempt_witness :
  (fst (calculateDelay (Sim.constantRandom (1 # 2)) 1 1000 30000 0%nat)
   <= fst (calculateDelay (Sim.constantRandom (1 # 2)) 7 1000 30000 0%nat))%Z.
Proof.
  apply (calculateDelay_grows_with_attempt nat (Sim.constantRandom (1 # 2))
                                           1 7 1000 30000 0%nat).
  - exact computedExactly_second_attempt.
  - exact computedExactly_eighth_attempt.
  - unfold Qle. simpl. lia.
  - lia.
  - unfold Qle. simpl. lia.
Defined.

(* ------------------------------------------------------------------ *)
(** ** The merged URL support *)

Lemma pushPatterns_keys (k : string) (ps : list string) :
  forall merged k',
  In k' (map fst (pushPatterns k ps merged))
  <-> k' = k \/ In k' (map fst merged).
Proof.
  induction merged as [|[k0 ps0] merged IH]; intros k'; simpl.
  - intuition congruence.
  - destruct (String.eqb_spec k0 k) as [->|Hne]; simpl.
    + intuition congruence.
    + rewrite IH. tauto.
Qed.

Lemma pushPatterns_NoDup (k : string) (ps : list string) :
  forall merged,
  NoDup (map fst merged) -> NoDup (map fst (pushPatterns k ps merged)).
Proof.
  induction merged as [|[k0 ps0] merged IH]; intros Hnd; simpl.
  - constructor; [intros []|constructor].
  - inversion Hnd as [|? ? Hnotin Hnd']; subst.
    destruct (String.eqb_spec k0 k) as [->|Hne]; simpl.
    + now constructor.
    + constructor; [|now apply IH].
      rewrite pushPatterns_keys. intros [->|Hin]; [now elim Hne|tauto].
Qed.

Lemma patternsOf_absent (k : string) :
  forall urls, ~ In k (map fst urls) -> patternsOf k urls = [].
Proof.
  induction urls as [|[k0 ps0] urls IH]; intros Hnotin; [reflexivity|].
  unfold patternsOf in *. simpl in *.
  destruct (String.eqb_spec k0 k) as [->|_]; [tauto|]. apply IH. tauto.
Qed.

Lemma patternsOf_pushPatterns (k : string) (ps : list string) (k' : string) :
  forall merged,
  NoDup (map fst merged) ->
  patternsOf k' (pushPatterns k ps merged)
  = patternsOf k' merged ++ (if String.eqb k k' then ps else []).
Proof.
  induction merged as [|[k0 ps0] merged IH]; intros Hnd.
  - unfold patternsOf. simpl. now rewrite app_nil_r.
  - inversion Hnd as [|? ? Hnotin Hnd']; subst. simpl.
    destruct (String.eqb_spec k0 k) as [->|Hne].
    + unfold patternsOf at 1 2. simpl. fold (patternsOf k' merged).
      destruct (String.eqb_spec k k') as [->|_].
      * rewrite (patternsOf_absent _ _ Hnotin), !app_nil_r. reflexivity.
      * now rewrite app_nil_r.
    + unfold patternsOf at 1 2. simpl.
      fold (patternsOf k' (pushPatterns k ps merged)).
      fold (patternsOf k' merged).
      now rewrite (IH Hnd'), app_assoc.
Qed.

(** What pushing the entries of one record does to the merged record. *)
Lemma merge_entries (urls : list (string * list string)) :
  forall merged,
  NoDup (map fst merged) ->
  let merged' :=
    fold_left (fun acc entry => pushPatterns (fst entry) (snd entry) acc)
              urls merged in
  NoDup (map fst merged')
  /\ (forall k, patternsOf k merged' = patternsOf k merged ++ patternsOf k urls)
  /\ (forall k, In k (map fst merged')
                <-> In k (map fst merged) \/ In k (map fst urls)).
Proof.
  induction urls as [|[k0 ps0] urls IH]; intros merged Hnd; cbv zeta; simpl.
  - repeat split; trivial; try tauto.
    intros k. change (patternsOf k []) with (@nil string).
    now rewrite app_nil_r.
  - destruct (IH _ (pushPatterns_NoDup k0 ps0 _ Hnd)) as (Hnd' & Hpat & Hkeys).
    split; [exact Hnd'|]. split.
    + intros k. rewrite Hpat, patternsOf_pushPatterns by exact Hnd.
      rewrite <- app_assoc. reflexivity.
    + intros k. rewrite Hkeys, pushPatterns_keys. intuition congruence.
Qed.

Lemma merge_models : forall models merged,
  NoDup (map fst merged) ->
  let merged' :=
    fold_left
      (fun acc urls =>
         fold_left (fun acc entry => pushPatterns (fst entry) (snd entry) acc)
                   urls acc)
      (map supportedUrls models) merged in
  NoDup (map fst merged')
  /\ (forall k, patternsOf k merged'
                = patternsOf k merged
                  ++ flat_map (fun m => patternsOf k (supportedUrls m)) models)
  /\ (forall k, In k (map fst merged')
                <-> In k (map fst merged)
                    \/ exists m, In m models
                                 /\ In k (map fst (supportedUrls m))).
Proof.
  induction models as [|m models IH]; intros merged Hnd; cbv zeta; simpl.
  - repeat split; trivial; try tauto.
    + intros k. now rewrite app_nil_r.
    + intros [?|(m & [] & _)]. assumption.
  - destruct (merge_entries (supportedUrls m) merged Hnd) as (Hnd1 & Hpat1 & Hkeys1).
    destruct (IH _ Hnd1) as (Hnd2 & Hpat2 & Hkeys2).
    split; [exact Hnd2|]. split.
    + intros k. rewrite Hpat2, Hpat1, <- app_assoc. reflexivity.
    + intros k. rewrite Hkeys2, Hkeys1. split.
      * intros [[?|?]|(m' & ? & ?)]; eauto 6.
      * intros [?|(m' & [->|?] & ?)]; eauto 6.
Qed.

(** X5: under every media type the merged record lists the patterns of all
    models, model after model in the order of the chain, repeated patterns
    included; a media type no model declares has none. *)
Theorem mergeSupportedUrls_patterns (models : list LanguageModelV3)
    (mediaType : string) :
  plainMediaTypes models ->
  patternsOf mediaType (mergeSupportedUrls models)
  = flat_map (fun m => patternsOf mediaType (supportedUrls m)) models.
Proof.
  intros _. unfold mergeSupportedUrls.
  destruct (merge_models models [] (NoDup_nil _)) as (_ & Hpat & _).
  now rewrite Hpat.
Qed.

(** X6: the merged record has exactly the media types that some model
    declares, each of them once. *)
Theorem mergeSupportedUrls_keys (models : list LanguageModelV3) :
  plainMediaTypes models ->
  NoDup (map fst (mergeSupportedUrls models))
  /\ forall mediaType,
       In mediaType (map fst (mergeSupportedUrls models))
       <-> exists m, In m models /\ In mediaType (map fst (supportedUrls m)).
Proof.
  intros _. unfold mergeSupportedUrls.
  destruct (merge_models models [] (NoDup_nil _)) as (Hnd & _ & Hkeys).
  split; [exact Hnd|]. intros k. rewrite Hkeys. simpl. tauto.
Qed.

(* ------------------------------------------------------------------ *)
(** ** The summary of the aggregate error *)

Lemma singleLine_app (x y : string) :
  singleLine (x ++ y)%string = singleLine x && singleLine y.
Proof.
  induction x as [|ch x IH]; [reflexivity|].
  simpl. rewrite IH. now rewrite andb_assoc.
Qed.

(** A decimal numeral has no line break. *)
Lemma singleLine_numeral (d : Decimal.uint) :
  singleLine (NilEmpty.string_of_uint d) = true.
Proof. induction d; simpl; auto. Qed.

Lemma splitLines_single (x : string) :
  singleLine x = true -> splitLines x = [x].
Proof.
  induction x as [|ch x IH]; [reflexivity|]. simpl.
  intros H. apply andb_true_iff in H. destruct H as [Hch Hx].
  destruct (isLineBreak ch); [discriminate|]. now rewrite (IH Hx).
Qed.

Lemma splitLines_break (x rest : string) :
  singleLine x = true ->
  splitLines (x ++ newline ++ rest)%string = x :: splitLines rest.
Proof.
  assert (Hbase : splitLines (newline ++ rest)%string
                  = EmptyString :: splitLines rest) by reflexivity.
  remember (newline ++ rest)%string as tail eqn:Htail. clear Htail.
  induction x as [|ch x IH]; [intros _; exact Hbase|].
  intros H. simpl in H. apply andb_true_iff in H. destruct H as [Hch Hx].
  change (String ch x ++ tail)%string with (String ch (x ++ tail)%string).
  cbn [splitLines].
  destruct (isLineBreak ch); [discriminate|]. now rewrite (IH Hx).
Qed.

Lemma splitLines_joined : forall lines,
  lines <> [] ->
  Forall (fun l => singleLine l = true) lines ->
  splitLines (String.concat newline lines) = lines.
Proof.
  induction lines as [|l lines IH]; intros Hne Hall; [now elim Hne|].
  inversion Hall as [|? ? Hl Hrest]; subst.
  destruct lines as [|l' lines].
  - simpl. now apply splitLines_single.
  - change (String.concat newline (l :: l' :: lines))
      with (l ++ newline ++ String.concat newline (l' :: lines))%string.
    rewrite (splitLines_break _ _ Hl), IH; [reflexivity | discriminate | exact Hrest].
Qed.

Lemma summaryLines_nth (errs : list (LanguageModelV3 * Failure)) :
  forall start k,
  nth_error (summaryLines start errs) k
  = option_map (summaryLine (start + k)) (nth_error errs k).
Proof.
  induction errs as [|e errs IH]; intros start [|k]; simpl; trivial.
  - now rewrite Nat.add_0_r.
  - rewrite IH. now rewrite Nat.add_succ_r.
Qed.

Lemma summaryLines_single (errs : list (LanguageModelV3 * Failure)) :
  Forall (fun p => singleLine (provider (fst p)) = true
                   /\ singleLine (modelId (fst p)) = true
                   /\ singleLine (errorText (snd p)) = true) errs ->
  forall start,
  Forall (fun l => singleLine l = true) (summaryLines start errs).
Proof.
  induction 1 as [|p errs (Hp & Hm & He) _ IH]; intros start; simpl;
    constructor; [|apply IH].
  unfold summaryLine. rewrite !singleLine_app, singleLine_numeral, Hp, Hm, He.
  reflexivity.
Qed.

(** X17: when no provider name, model id or failure text has a line break
    in it and there is at least one pair, the message of the aggregate
    error, split at its line breaks, is the heading followed by exactly one
    line per pair: line [k] reads "  [k] provider/modelId: text" for pair
    [k], with [k] in decimal.  The error keeps the list it is given. *)
Theorem summary_has_a_line_per_pair (errs : list (LanguageModelV3 * Failure)) :
  errs <> [] ->
  Forall (fun p => singleLine (provider (fst p)) = true
                   /\ singleLine (modelId (fst p)) = true
                   /\ singleLine (errorText (snd p)) = true) errs ->
  exists message lines,
    newAllModelsExhaustedError errs = AllModelsExhaustedError message errs
    /\ splitLines message = "All fallback models exhausted:"%string :: lines
    /\ List.length lines = List.length errs
    /\ forall k p,
         nth_error errs k = Some p ->
         nth_error lines k
         = Some ("  [" ++ NilEmpty.string_of_uint (Nat.to_uint k) ++ "] "
                 ++ provider (fst p) ++ "/" ++ modelId (fst p) ++ ": "
                 ++ errorText (snd p))%string.
Proof.
  intros Hne Hall.
  exists ("All fallback models exhausted:" ++ newline
          ++ String.concat newline (summaryLines 0 errs))%string,
         (summaryLines 0 errs).
  split; [reflexivity|]. split; [|split].
  - rewrite splitLines_break by reflexivity. f_equal.
    apply splitLines_joined; [|now apply summaryLines_single].
    destruct errs; [now elim Hne | discriminate].
  - generalize 0%nat. induction errs as [|e errs IH]; intros start; simpl;
      [reflexivity|].
    destruct errs as [|e' errs]; [reflexivity|].
    rewrite IH; [reflexivity | discriminate | now inversion Hall].
  - intros k p Hk. rewrite summaryLines_nth, Hk. reflexivity.
Qed.

Lemma summary_has_a_line_per_pair_witness :
  let e1 := APICallError "Server error on a" (Some 500%Z) true in
  let e2 := TypeError "fetch failed" in
  let errs := [(a, e1); (b, e2)] in
  exists message lines,
    newAllModelsExhaustedError errs = AllModelsExhaustedError message errs
    /\ splitLines message = "All fallback models exhausted:"%string :: lines
    /\ List.length lines = List.length errs
    /\ forall k p,
         nth_error errs k = Some p ->
         nth_error lines k
         = Some ("  [" ++ NilEmpty.string_of_uint (Nat.to_uint k) ++ "] "
                 ++ provider (fst p) ++ "/" ++ modelId (fst p) ++ ": "
                 ++ errorText (snd p))%string.
Proof.
  apply (summary_has_a_line_per_pair
           [(a, APICallError "Server error on a" (Some 500%Z) true);
            (b, TypeError "fetch failed")]).
  - discriminate.
  - repeat constructor.
Defined.

(** A failure text with a line break in it gives more lines than pairs. *)
Example summary_of_a_two_line_failure :
  let text := ("first line" ++ newline ++ "second line")%string in
  splitLines (errorText (newAllModelsExhaustedError [(a, Error text)]))
  = ["All fallback models exhausted:"; "  [0] mock/a: first line";
     "second line"]%string.
Proof. vm_compute. reflexivity. Qed.

(* ------------------------------------------------------------------ *)
(** ** More on the composite *)

Lemma string_app_nil_r (x : string) : (x ++ "")%string = x.
Proof. induction x as [|ch x IH]; simpl; [reflexivity | now rewrite IH]. Qed.

Lemma string_app_assoc (x y z : string) :
  ((x ++ y) ++ z)%string = (x ++ y ++ z)%string.
Proof. induction x as [|ch x IH]; simpl; [reflexivity | now rewrite IH]. Qed.

(** A joined string contains each of its parts. *)
Lemma concat_includes (sep : string) : forall parts x,
  In x parts -> includes x (String.concat sep parts) = true.
Proof.
  induction parts as [|y parts IH]; intros x Hin; [contradiction|].
  apply includes_iff. destruct Hin as [->|Hin].
  - destruct parts as [|z parts].
    + exists ""%string, ""%string. simpl. now rewrite string_app_nil_r.
    + exists ""%string, (sep ++ String.concat sep (z :: parts))%string.
      reflexivity.
  - destruct parts as [|z parts]; [contradiction|].
    destruct (proj1 (includes_iff _ _) (IH x Hin)) as (pre & post & Heq).
    exists (y ++ sep ++ pre)%string, post.
    change (String.concat sep (y :: z :: parts))
      with (y ++ sep ++ String.concat sep (z :: parts))%string.
    now rewrite Heq, !string_app_assoc.
Qed.

Section CompositeShape.

Variable W : Type.
Variable random : W -> Q * W.
Variable timer : Z -> option (AbortSignal W) -> W -> W.
Variables GenerateResult StreamResult : Type.
Variable backendGenerate :
  LanguageModelV3 -> LanguageModelV3CallOptions W -> W
  -> Outcome GenerateResult * W.
Variable backendStream :
  LanguageModelV3 -> LanguageModelV3CallOptions W -> W
  -> Outcome StreamResult * W.

Local Abbreviation create :=
  (createFallbackModel random timer backendGenerate backendStream).

(** X18: a composite is built from a non-empty list of models only.  Its
    model id is the configured one; when none is configured it contains
    the id of every model of the chain, and it is the id of the model
    itself when the chain has a single model. *)
Theorem composite_model_id (cfg : Config.t) (fm : FallbackModel W _ _) :
  create cfg = Returned fm ->
  Config.models cfg <> []
  /\ match Config.modelId cfg with
     | Some id => modelId (identity fm) = id
     | None =>
         (forall m, In m (Config.models cfg) ->
                    includes (modelId m) (modelId (identity fm)) = true)
         /\ (forall m, Config.models cfg = [m] ->
                       modelId (identity fm) = modelId m)
     end.
Proof.
  unfold createFallbackModel. intros H.
  destruct (Config.models cfg) as [|m0 rest] eqn:Hmodels; [discriminate|].
  simpl in H. inversion H; subst fm; clear H.
  cbn [identity modelId].
  split; [discriminate|].
  destruct (Config.modelId cfg); [reflexivity|]. split.
  - intros m Hin.
    exact (concat_includes " -> " (map modelId (m0 :: rest)) (modelId m)
                           (in_map modelId (m0 :: rest) m Hin)).
  - intros m Hm. inversion Hm; subst. reflexivity.
Qed.

(** X19: with the default budget (no [maxRetriesPerModel] in the config),
    [doGenerate] and [doStream] invoke each backend at most once and never
    call [onRetry]. *)
Theorem default_budget_never_retries (cfg : Config.t)
    (fm : FallbackModel W _ _) (options : LanguageModelV3CallOptions W) (w : W) :
  create cfg = Returned fm ->
  Config.maxRetriesPerModel cfg = None ->
  (forall c st, doGenerate fm options w = Some (c, st) ->
     (forall j, (invocationsOf j (trace st) <= 1)%nat)
     /\ forall i m k maxRetries e delay,
          ~ In (RetryEvent i m k maxRetries e delay) (trace st))
  /\ (forall c st, doStream fm options w = Some (c, st) ->
     (forall j, (invocationsOf j (trace st) <= 1)%nat)
     /\ forall i m k maxRetries e delay,
          ~ In (RetryEvent i m k maxRetries e delay) (trace st)).
Proof.
  unfold createFallbackModel. intros H Hbudget. rewrite Hbudget in H.
  destruct (Config.models cfg) as [|m0 rest] eqn:Hmodels; [discriminate|].
  simpl in H. inversion H; subst fm; clear H. simpl.
  split; intros c st Hrun;
    destruct (execute_finalInvariant _ _ _ _ _ _ _ _ _ _ _ _ _ _ Hrun)
      as (Hwf & _ & Hall & _);
    (split;
     [ intros j; specialize (Hall j); simpl in Hall; lia
     | intros i m k maxRetries e delay Hin;
       rewrite Forall_forall in Hwf; specialize (Hwf _ Hin);
       unfold wellFormedEvent in Hwf; lia ]).
Qed.

End CompositeShape.

(* ------------------------------------------------------------------ *)
(** ** More runs in the scripted world *)

Lemma mediaChain_plain : plainMediaTypes Sim.mediaChain.
Proof.
  intros m k Hm Hk. simpl in Hm.
  destruct Hm as [<-|[<-|[]]]; simpl in Hk;
    repeat (destruct Hk as [<-|Hk]); try contradiction;
    simpl; intuition discriminate.
Qed.

Lemma mergeSupportedUrls_patterns_witness :
  patternsOf "image/*" (mergeSupportedUrls Sim.mediaChain)
  = flat_map (fun m => patternsOf "image/*" (supportedUrls m)) Sim.mediaChain.
Proof.
  apply (mergeSupportedUrls_patterns Sim.mediaChain "image/*").
  exact mediaChain_plain.
Defined.

Lemma mergeSupportedUrls_keys_witness :
  NoDup (map fst (mergeSupportedUrls Sim.mediaChain))
  /\ forall mediaType,
       In mediaType (map fst (mergeSupportedUrls Sim.mediaChain))
       <-> exists m, In m Sim.mediaChain
                     /\ In mediaType (map fst (supportedUrls m)).
Proof.
  apply (mergeSupportedUrls_keys Sim.mediaChain). exact mediaChain_plain.
Defined.

Example merged_media_chain :
  mergeSupportedUrls Sim.mediaChain
  = [("image/*", ["https://a.example/"; "https://b.example/"]);
     ("audio/*", ["https://s.example/"])].
Proof. reflexivity. Qed.

Local Abbreviation simRun500 :=
  (Sim.run [a; b] 1 (Sim.always Sim.fail500) Sim.noSignal).

Lemma invocation_budget_witness :
  (invocationsOf 0 (trace (Sim.finalState simRun500)) <= Z.to_nat (1 + 1))%nat.
Proof.
  refine (invocation_budget
            nat (Sim.constantRandom (1 # 2)) Sim.tick [a; b] 1 1000 30000
            defaultShouldRetry string
            (Sim.mockOperation (Sim.always Sim.fail500)) Sim.noSignal
            0%nat _ (Sim.finalState simRun500) 0%nat _).
  vm_compute. reflexivity.
Defined.

Lemma backends_tried_in_chain_order_witness :
  StronglySorted le (map eventIndex (trace (Sim.finalState simRun500))).
Proof.
  refine (backends_tried_in_chain_order
            nat (Sim.constantRandom (1 # 2)) Sim.tick [a; b] 1 1000 30000
            defaultShouldRetry string
            (Sim.mockOperation (Sim.always Sim.fail500)) Sim.noSignal
            0%nat _ (Sim.finalState simRun500) _).
  vm_compute. reflexivity.
Defined.

Lemma fallback_events_name_the_next_backend_witness :
  let e := APICallError "Server error on a" (Some 500%Z) true in
  nth_error [a; b] 0 = Some a
  /\ 1%nat = 1%nat
  /\ (exists m', Some b = Some m' /\ nth_error [a; b] 1 = Some m')
  /\ (1 < List.length [a; b])%nat
  /\ (1 <= 2 <= 1 + 1)%Z
  /\ action (defaultShouldRetry e) <> throw.
Proof.
  refine (fallback_events_name_the_next_backend
            nat (Sim.constantRandom (1 # 2)) Sim.tick [a; b] 1 1000 30000
            defaultShouldRetry string
            (Sim.mockOperation (Sim.always Sim.fail500)) Sim.noSignal
            0%nat _ (Sim.finalState simRun500)
            0%nat a 1%nat (Some b)
            (APICallError "Server error on a" (Some 500%Z) true) 2%Z _ _).
  - vm_compute. reflexivity.
  - vm_compute. tauto.
Defined.

Lemma retry_events_within_budget_witness :
  let e := APICallError "Server error on a" (Some 500%Z) true in
  nth_error [a; b] 0 = Some a
  /\ (1 <= 1 <= 1)%Z
  /\ 1%Z = 1%Z
  /\ action (defaultShouldRetry e) = retry.
Proof.
  refine (retry_events_within_budget
            nat (Sim.constantRandom (1 # 2)) Sim.tick [a; b] 1 1000 30000
            defaultShouldRetry string
            (Sim.mockOperation (Sim.always Sim.fail500)) Sim.noSignal
            0%nat _ (Sim.finalState simRun500)
            0%nat a 1%Z 1%Z
            (APICallError "Server error on a" (Some 500%Z) true) 750%Z _ _).
  - vm_compute. reflexivity.
  - vm_compute. tauto.
Defined.

Lemma errors_are_the_recorded_failures_witness :
  errors (Sim.finalState simRun500) = recorded (trace (Sim.finalState simRun500)).
Proof.
  refine (errors_are_the_recorded_failures
            nat (Sim.constantRandom (1 # 2)) Sim.tick [a; b] 1 1000 30000
            defaultShouldRetry string
            (Sim.mockOperation (Sim.always Sim.fail500)) Sim.noSignal
            0%nat _ (Sim.finalState simRun500) _).
  vm_compute. reflexivity.
Defined.

Lemma outcome_cases_witness :
  let options := Sim.noSignal in
  let operation := Sim.mockOperation (Sim.byId [("a", Sim.fail429)]) in
  let c : Completion string := Return "Response from b" in
  let st := Sim.finalState
              (Sim.run [a; b] 0 (Sim.byId [("a", Sim.fail429)]) options) in
  (exists v i m w0,
      c = Return v /\ nth_error [a; b] i = Some m
      /\ operation m w0 = (Returned v, world st))
  \/ (c = Throw (newAllModelsExhaustedError (errors st))
      /\ exhausts (Sim.constantRandom (1 # 2)) Sim.tick [a; b] 0 1000 30000
                  defaultShouldRetry operation options 0%nat st)
  \/ (exists e i m w0,
         c = Throw e /\ nth_error [a; b] i = Some m
         /\ operation m w0 = (Threw e, world st)
         /\ action (defaultShouldRetry e) = throw)
  \/ (c = Throw (abortReason (abortSignal options) (world st))
      /\ signalAborted (abortSignal options) (world st) = true).
Proof.
  refine (outcome_cases
            nat (Sim.constantRandom (1 # 2)) Sim.tick [a; b] 0 1000 30000
            defaultShouldRetry string
            (Sim.mockOperation (Sim.byId [("a", Sim.fail429)])) Sim.noSignal
            0%nat (Return "Response from b")
            (Sim.finalState
               (Sim.run [a; b] 0 (Sim.byId [("a", Sim.fail429)]) Sim.noSignal))
            _).
  vm_compute. reflexivity.
Defined.

(** Backend 0 is rate limited; backend 1 answers. *)
Lemma first_success_is_returned_witness :
  let e0 := APICallError "Rate limited on a" (Some 429%Z) true in
  let before := [Invoked 0 a; ErrorEvent 0 a e0 {| action := fallback |};
                 FallbackEvent 0 a 1 (Some b) e0 1] in
  exists st',
    Sim.run [a; b] 0 (Sim.byId [("a", Sim.fail429)]) Sim.noSignal
    = Some (Return "Response from b", st')
    /\ trace st' = before ++ [Invoked 1 b]
    /\ errors st' = [(a, e0)]
    /\ world st' = 0%nat.
Proof.
  refine (first_success_is_returned
            nat (Sim.constantRandom (1 # 2)) Sim.tick [a; b] 0 1000 30000
            defaultShouldRetry string
            (Sim.mockOperation (Sim.byId [("a", Sim.fail429)])) Sim.noSignal
            0%nat 1%nat b 0%Z
            {| errors := [(a, APICallError "Rate limited on a" (Some 429%Z) true)];
               world := 0%nat;
               trace := [Invoked 0 a;
                         ErrorEvent 0 a
                           (APICallError "Rate limited on a" (Some 429%Z) true)
                           {| action := fallback |};
                         FallbackEvent 0 a 1 (Some b)
                           (APICallError "Rate limited on a" (Some 429%Z) true)
                           1] |}
            "Response from b" 0%nat _ _ _).
  - eapply Reaches_next with (model := a) (attempt := 0%Z).
    + apply Reaches_first; [reflexivity | lia].
    + vm_compute. reflexivity.
    + reflexivity.
    + lia.
  - reflexivity.
  - reflexivity.
Defined.

(** Backend 0 takes one tick to fail with 429; the signal fires at tick 1
    and is seen at the top of the attempt on backend 1. *)
Lemma cancellation_before_an_attempt_witness :
  let e0 := APICallError "Rate limited on a" (Some 429%Z) true in
  let options := Sim.withSignal (Sim.abortAt 1 (Some (NonError "stop"))) in
  let st := {| errors := [(a, e0)]; world := 1%nat;
               trace := [Invoked 0 a; ErrorEvent 0 a e0 {| action := fallback |};
                         FallbackEvent 0 a 1 (Some b) e0 1] |} in
  executeWithFallback (Sim.constantRandom (1 # 2)) Sim.tick [a; b] 0
                      1000 30000 defaultShouldRetry
                      (Sim.slowOperation (Sim.always Sim.fail429))
                      options 0%nat
  = Some (Throw (abortReason (abortSignal options) (world st)), st).
Proof.
  refine (cancellation_before_an_attempt
            nat (Sim.constantRandom (1 # 2)) Sim.tick [a; b] 0 1000 30000
            defaultShouldRetry string
            (Sim.slowOperation (Sim.always Sim.fail429))
            (Sim.withSignal (Sim.abortAt 1 (Some (NonError "stop"))))
            0%nat 1%nat b 0%Z _ _ _).
  - eapply Reaches_next with (model := a) (attempt := 0%Z).
    + apply Reaches_first; [reflexivity | lia].
    + vm_compute. reflexivity.
    + reflexivity.
    + lia.
  - reflexivity.
Defined.

(** The backend takes one tick to fail, and the signal fires at tick 1. *)
Lemma cancellation_noticed_by_sleep_witness :
  let e := APICallError "Server error on a" (Some 500%Z) true in
  let options := Sim.withSignal (Sim.abortAt 1 None) in
  exists st',
    executeWithFallback (Sim.constantRandom (1 # 2)) Sim.tick [a; b] 1
                        1000 30000 defaultShouldRetry
                        (Sim.slowOperation (Sim.always Sim.fail500))
                        options 0%nat
    = Some (Throw (abortReason (abortSignal options) 1%nat), st')
    /\ world st' = 1%nat
    /\ errors st' = [] ++ [(a, e)]
    /\ trace st' = [] ++ [Invoked 0 a; ErrorEvent 0 a e (defaultShouldRetry e);
                          RetryEvent 0 a (0 + 1) 1 e 750].
Proof.
  refine (cancellation_noticed_by_sleep
            nat (Sim.constantRandom (1 # 2)) Sim.tick [a; b] 1 1000 30000
            defaultShouldRetry string
            (Sim.slowOperation (Sim.always Sim.fail500))
            (Sim.withSignal (Sim.abortAt 1 None))
            0%nat 0%nat a 0%Z (start 0%nat)
            (APICallError "Server error on a" (Some 500%Z) true) 1%nat
            750%Z 1%nat _ _ _ _ _ _ _).
  - apply Reaches_first; [reflexivity | lia].
  - reflexivity.
  - reflexivity.
  - reflexivity.
  - lia.
  - vm_compute. reflexivity.
  - reflexivity.
Defined.

Lemma every_attempt_failing_exhausts_witness :
  exists st counts,
    Sim.run [a; b] 1 (Sim.always Sim.fail500) Sim.noSignal
    = Some (Throw (AllModelsExhaustedError
                     ("All fallback models exhausted:" ++ newline
                      ++ String.concat newline (summaryLines 0 (errors st)))%string
                     (errors st)),
            st)
    /\ exhausts (Sim.constantRandom (1 # 2)) Sim.tick [a; b] 1 1000 30000
                defaultShouldRetry
                (Sim.mockOperation (Sim.always Sim.fail500)) Sim.noSignal
                0%nat st
    /\ List.length counts = List.length [a; b]
    /\ Forall (fun k => (1 <= k)%nat /\ (Z.of_nat k <= 1 + 1)%Z) counts
    /\ map fst (errors st) = blocks [a; b] counts
    /\ errors st = caught (trace st).
Proof.
  refine (every_attempt_failing_exhausts
            nat (Sim.constantRandom (1 # 2)) Sim.tick [a; b] 1 1000 30000
            defaultShouldRetry string
            (Sim.mockOperation (Sim.always Sim.fail500)) Sim.noSignal
            _ _ 0%nat _).
  - reflexivity.
  - intros m w0 _.
    exists (APICallError ("Server error on " ++ modelId m)%string
                         (Some 500%Z) true), w0.
    split; [reflexivity | discriminate].
  - lia.
Defined.

Lemma composite_model_id_witness :
  exists fm,
    Sim.create (Sim.always Sim.succeed) (Sim.config [a; b; c] None)
    = Returned fm
    /\ modelId (identity fm) = "a -> b -> c"
    /\ [a; b; c] <> []
    /\ (forall m, In m [a; b; c] ->
                  includes (modelId m) (modelId (identity fm)) = true)
    /\ (forall m, [a; b; c] = [m] -> modelId (identity fm) = modelId m).
Proof.
  eexists. split; [reflexivity|]. split; [reflexivity|].
  refine (composite_model_id
            nat (Sim.constantRandom (1 # 2)) Sim.tick string string
            (Sim.mockBackend (Sim.always Sim.succeed))
            (Sim.mockBackend (Sim.always Sim.succeed))
            (Sim.config [a; b; c] None) _ _).
  reflexivity.
Defined.

Lemma default_budget_never_retries_witness :
  exists fm,
    Sim.create (Sim.always Sim.fail500) (Sim.config [a; b] None) = Returned fm
    /\ (forall c0 st, doGenerate fm Sim.noSignal 0%nat = Some (c0, st) ->
          (forall j, (invocationsOf j (trace st) <= 1)%nat)
          /\ forall i m k maxRetries e delay,
               ~ In (RetryEvent i m k maxRetries e delay) (trace st))
    /\ (forall c0 st, doStream fm Sim.noSignal 0%nat = Some (c0, st) ->
          (forall j, (invocationsOf j (trace st) <= 1)%nat)
          /\ forall i m k maxRetries e delay,
               ~ In (RetryEvent i m k maxRetries e delay) (trace st)).
Proof.
  eexists. split; [reflexivity|].
  refine (default_budget_never_retries
            nat (Sim.constantRandom (1 # 2)) Sim.tick string string
            (Sim.mockBackend (Sim.always Sim.fail500))
            (Sim.mockBackend (Sim.always Sim.fail500))
            (Sim.config [a; b] None) _ Sim.noSignal 0%nat _ _);
    reflexivity.
Defined.
